(** * tt_exercise.py: three NeoWs reports, modelled and verified

    The script queries NASA's near-earth-object feed and prints three
    reports.  Each Python function of [tt_exercise.py] is embedded below
    under its own name:

    - [display_asteroid_information]  (lines 9-43),
    - [display_asteroid_properties]   (lines 46-101),
    - [display_recent_hazardous_asteroids] (lines 104-148).

    Python values are modelled as follows.  A [float] is an IEEE-754
    binary64 number, here Rocq's primitive [float] with the same
    round-to-nearest-even arithmetic.  An [int] is a [Z].  A [datetime] is
    its proleptic Gregorian ordinal (a [Z], 1 being 0001-01-01): the script
    only ever subtracts whole days from [datetime.today()] and compares the
    results, so the time of day plays no role.  Exceptions are values of
    [exn]; the network and the console are an explicit [world]. *)

From Stdlib Require Import ZArith List String Bool Lia.
From Stdlib Require Import Permutation Sorted Floats DecimalString.
From ExtLib Require Import Structures.Monad.
Import ListNotations.
Import MonadNotation.
Local Open Scope monad_scope.
Local Open Scope Z_scope.
Set Warnings "-inexact-float".

(** ** Python runtime *)

(** The exceptions the script can raise: its own [Exception(f"Error ...")]
    and the built-in ones raised by the operations it uses. *)
Inductive exn : Type :=
| Exception (msg : string)
| ValueError
| ZeroDivisionError
| IndexError
| KeyError (key : string)
| OverflowError.

Inductive outcome (A : Type) : Type :=
| Ok (a : A)
| Raise (e : exn).
Arguments Ok {A} a.
Arguments Raise {A} e.

#[export] Instance Monad_outcome : Monad outcome :=
  {| ret := fun _ a => Ok a;
     bind := fun _ _ m k => match m with Ok a => k a | Raise e => Raise e end |}.

(** ** The feed

    The JSON of a feed response, restricted to the fields the script
    reads.  [near_earth_objects] is a dict from date to a list of
    asteroids; a dict has distinct keys and iterates in insertion order, so
    it is an association list whose entry for [date] is what
    [near_earth_objects[date]] returns. *)
Record close_approach : Type := {
  close_approach_date_full : string;
  kilometers_per_second : string   (* relative_velocity.kilometers_per_second *)
}.

Record asteroid : Type := {
  name : string;
  id : string;
  is_potentially_hazardous_asteroid : bool;
  close_approach_data : list close_approach
}.

Definition feed : Type := list (string * list asteroid).

(** A GET on the feed endpoint; the URL and the API key are constants. *)
Record request : Type := {
  start_date_param : string;
  end_date_param : string
}.

(** [near_earth_objects = None]: the decoded body has no such key. *)
Record response : Type := {
  status_code : Z;
  reason : string;
  near_earth_objects : option feed
}.

(** The requests issued so far and the lines printed so far. *)
Record world : Type := {
  sent : list request;
  stdout : list string
}.

(** A computation of the script: it may send requests and print, and ends
    with a value or an exception; what was sent and printed before an
    exception stays sent and printed. *)
Definition M (A : Type) : Type := world -> outcome A * world.

#[export] Instance Monad_M : Monad M :=
  {| ret := fun _ a w => (Ok a, w);
     bind := fun _ _ m k w =>
       match m w with
       | (Ok a, w') => k a w'
       | (Raise e, w') => (Raise e, w')
       end |}.

Definition lift {A : Type} (o : outcome A) : M A := fun w => (o, w).

Definition raise {A : Type} (e : exn) : M A := lift (Raise e).

Definition print (line : string) : M unit :=
  fun w => (Ok tt, {| sent := sent w; stdout := (stdout w ++ [line])%list |}).

(** [for x in l: body] *)
Fixpoint for_each {A : Type} (l : list A) (body : A -> M unit) : M unit :=
  match l with
  | [] => ret tt
  | x :: rest => body x ;; for_each rest body
  end.

(** [str(n)] for an int. *)
Definition str (n : Z) : string := NilZero.string_of_int (Z.to_int n).

(** [l[i]] with Python's negative indices. *)
Definition getitem {A : Type} (l : list A) (i : Z) : outcome A :=
  let j := if i <? 0 then i + Z.of_nat (List.length l) else i in
  if j <? 0 then Raise IndexError
  else match nth_error l (Z.to_nat j) with
       | Some x => Ok x
       | None => Raise IndexError
       end.

(** [data["near_earth_objects"]] *)
Definition get_near_earth_objects (r : response) : outcome feed :=
  match near_earth_objects r with
  | Some neo => Ok neo
  | None => Raise (KeyError "near_earth_objects")
  end.

(** [d - timedelta(days=k)]: a datetime before 0001-01-01 does not exist. *)
Definition sub_days (d k : Z) : outcome Z :=
  if 1 <=? d - k then Ok (d - k) else Raise OverflowError.

(** ** Built-ins on floats *)

Local Open Scope float_scope.

(** [max(l)]: the first item is the candidate, a later item replaces it
    when [item > candidate]. *)
Definition py_max (l : list float) : outcome float :=
  match l with
  | [] => Raise ValueError
  | x :: rest => Ok (fold_left (fun m item => if m <? item then item else m) rest x)
  end.

(** [min(l)]: as [max], with [item < candidate]. *)
Definition py_min (l : list float) : outcome float :=
  match l with
  | [] => Raise ValueError
  | x :: rest => Ok (fold_left (fun m item => if item <? m then item else m) rest x)
  end.

(** [x / n] for a float [x] and an int [n], which is converted to the
    nearest float first. *)
Definition truediv (x : float) (n : Z) : outcome float :=
  if (n =? 0)%Z then Raise ZeroDivisionError
  else Ok (x / of_uint63 (Uint63.of_Z n)).

(** [sum(l)], summing from left to right from 0, as the language reference
    describes it and CPython up to 3.11 computes it. *)
Definition sum_left (l : list float) : float :=
  fold_left add l 0.

(** [sum(l)] as CPython 3.12 and later compute it: Neumaier's compensated
    summation, the compensation added at the end when it is non-zero and
    finite. *)
Definition sum_compensated (l : list float) : float :=
  let step (acc : float * float) (x : float) :=
    let (f, c) := acc in
    let t := f + x in
    (t, if abs x <=? abs f then c + ((f - t) + x) else c + ((x - t) + f)) in
  let (f, c) := fold_left step l (0, 0) in
  if negb (c =? 0) && is_finite c then f + c else f.

(** [sorted(l)] compares with [<] only and is stable.  CPython sorts a
    short list by binary insertion: each item goes to the right of the
    items already placed that are not greater than it.  On a list without
    NaN every stable sort gives this same list. *)
Fixpoint insort (x : float) (placed : list float) : list float :=
  match placed with
  | [] => [x]
  | y :: rest => if x <? y then x :: y :: rest else y :: insort x rest
  end.

Definition sorted (l : list float) : list float :=
  fold_left (fun placed x => insort x placed) l [].

(** ** The aggregates of [display_asteroid_properties] (lines 80-94) *)

(** [fastest_velocity = max(velocities)] *)
Definition fastest_velocity (velocities : list float) : outcome float :=
  py_max velocities.

(** [slowest_velocity = min(velocities)] *)
Definition slowest_velocity (velocities : list float) : outcome float :=
  py_min velocities.

(** [mean_velocity = sum(velocities) / len(velocities)], for the [sum] of
    the interpreter at hand. *)
Definition mean_velocity (py_sum : list float -> float) (velocities : list float)
  : outcome float :=
  truediv (py_sum velocities) (Z.of_nat (List.length velocities)).

(** Lines 86-94: sort, then the middle item or the average of the two
    middle items. *)
Definition median_velocity (velocities : list float) : outcome float :=
  let sorted_velocities := sorted velocities in
  let len := Z.of_nat (List.length sorted_velocities) in
  if negb (len mod 2 =? 0)%Z then
    getitem sorted_velocities (len / 2)
  else
    hi <- getitem sorted_velocities (len / 2) ;;
    lo <- getitem sorted_velocities (len / 2 - 1) ;;
    truediv (hi + lo) 2.

Local Close Scope float_scope.

(** ** The three reports *)

Section Script.

(** The remote service: the response to a request, given the requests
    that came before it. *)
Variable web : list request -> request -> response.

(** [float(s)] on a string; [None] when it raises [ValueError]. *)
Variable float_of_string : string -> option float.

(** The interpreter's [sum]. *)
Variable py_sum : list float -> float.

(** [f"{x:.2f}"] *)
Variable format_2f : float -> string.

(** [d.strftime('%Y-%m-%d')] of the datetime with ordinal [d]. *)
Variable strftime : Z -> string.

(** [datetime.today()], read as the same day throughout a call. *)
Variable today : Z.

(** [requests.get(...)] *)
Definition requests_get (q : request) : M response :=
  fun w => (Ok (web (sent w) q),
            {| sent := (sent w ++ [q])%list; stdout := stdout w |}).

(** Lines 37-39 *)
Definition print_close_approaches (a : asteroid) : M unit :=
  for_each (close_approach_data a) (fun close_approach_data =>
    print ("Close approach date (full): "
             ++ close_approach_date_full close_approach_data)).

(** Lines 31-39 *)
Definition print_asteroids (asteroids : list asteroid) : M unit :=
  for_each asteroids (fun asteroid =>
    print " ---------- " ;;
    print ("Name: " ++ name asteroid) ;;
    print ("ID: " ++ id asteroid) ;;
    print_close_approaches asteroid).

(** Lines 9-43 *)
Definition display_asteroid_information (start_date end_date : string) : M unit :=
  response <- requests_get {| start_date_param := start_date;
                              end_date_param := end_date |} ;;
  if status_code response =? 200 then
    near_earth_objects <- lift (get_near_earth_objects response) ;;
    for_each near_earth_objects (fun '(date, asteroids) =>
      print ("---------- Asteroids approach date: " ++ date ++ " ----------") ;;
      print_asteroids asteroids ;;
      print EmptyString)
  else
    raise (Exception ("Error " ++ str (status_code response) ++ ": "
                        ++ reason response)).

(** Lines 76-78: the velocity of one asteroid, appended to [velocities]. *)
Definition append_velocity (velocities : list float) (a : asteroid)
  : outcome (list float) :=
  first <- getitem (close_approach_data a) 0 ;;
  match float_of_string (kilometers_per_second first) with
  | Some relative_velocity => Ok (velocities ++ [relative_velocity])%list
  | None => Raise ValueError
  end.

(** A loop that updates a local variable and may raise. *)
Fixpoint fold_outcome {A S : Type} (body : S -> A -> outcome S) (l : list A) (s : S)
  : outcome S :=
  match l with
  | [] => Ok s
  | x :: rest => s' <- body s x ;; fold_outcome body rest s'
  end.

(** Lines 70-78 *)
Definition extract_velocities (near_earth_objects : feed) : outcome (list float) :=
  fold_outcome (fun velocities '(_, asteroids) =>
                  fold_outcome append_velocity asteroids velocities)
               near_earth_objects [].

(** Lines 46-101 *)
Definition display_asteroid_properties (start_date end_date : string) : M unit :=
  response <- requests_get {| start_date_param := start_date;
                              end_date_param := end_date |} ;;
  if status_code response =? 200 then
    near_earth_objects <- lift (get_near_earth_objects response) ;;
    velocities <- lift (extract_velocities near_earth_objects) ;;
    fastest <- lift (fastest_velocity velocities) ;;
    slowest <- lift (slowest_velocity velocities) ;;
    mean <- lift (mean_velocity py_sum velocities) ;;
    median <- lift (median_velocity velocities) ;;
    print ("Fastest velocity: " ++ format_2f fastest ++ " kilometers_per_second") ;;
    print ("Slowest velocity: " ++ format_2f slowest ++ " kilometers_per_second") ;;
    print ("Mean velocity: " ++ format_2f mean ++ " kilometers_per_second") ;;
    print ("Median velocity: " ++ format_2f median ++ " kilometers_per_second")
  else
    raise (Exception ("Error " ++ str (status_code response) ++ ": "
                        ++ reason response)).

(** Lines 133-135: the hazardous asteroids of one date, appended. *)
Definition append_hazardous (date : string) (asteroids : list asteroid)
           (hazardous_asteroids : list (string * string)) : list (string * string) :=
  fold_left (fun found asteroid =>
               if is_potentially_hazardous_asteroid asteroid
               then (found ++ [(date, name asteroid)])%list
               else found)
            asteroids hazardous_asteroids.

(** Lines 132-139: the dates of one response, left as soon as three
    entries are held. *)
Fixpoint scan_response (near_earth_objects : feed)
         (hazardous_asteroids : list (string * string)) : list (string * string) :=
  match near_earth_objects with
  | [] => hazardous_asteroids
  | (date, asteroids) :: rest =>
      let found := append_hazardous date asteroids hazardous_asteroids in
      if (3 <=? List.length found)%nat then found
      else scan_response rest found
  end.

(** Lines 121-143, the [while] loop.  [fuel] bounds the iterations the
    model follows; [None] is returned when it runs out. *)
Fixpoint scan_loop (fuel : nat) (end_date start_date : Z)
         (hazardous_asteroids : list (string * string))
  : M (option (list (string * string))) :=
  if (List.length hazardous_asteroids <? 3)%nat then
    limit <- lift (sub_days end_date 30) ;;
    if start_date >? limit then
      match fuel with
      | O => ret None
      | S fuel' =>
          response <- requests_get {| start_date_param := strftime start_date;
                                      end_date_param := strftime end_date |} ;;
          near_earth_objects <- lift (get_near_earth_objects response) ;;
          let found := scan_response near_earth_objects hazardous_asteroids in
          end_date' <- lift (sub_days end_date 1) ;;
          start_date' <- lift (sub_days start_date 1) ;;
          scan_loop fuel' end_date' start_date' found
      end
    else ret (Some hazardous_asteroids)
  else ret (Some hazardous_asteroids).

(** Lines 146-148 *)
Definition print_report (hazardous_asteroids : list (string * string)) : M unit :=
  print ("The three most recent hazardous asteroids As of today "
           ++ strftime today ++ " are:") ;;
  for_each hazardous_asteroids (fun '(date, name) => print (date ++ ": " ++ name)).

(** Lines 104-148.  Every iteration of the loop moves [end_date] one day
    back and needs [end_date - 30 days] to exist, so [today] iterations
    are more than the loop can make. *)
Definition display_recent_hazardous_asteroids : M (option unit) :=
  let end_date := today in
  start_date <- lift (sub_days end_date 1) ;;
  scanned <- scan_loop (Z.to_nat today) end_date start_date [] ;;
  match scanned with
  | None => ret None
  | Some hazardous_asteroids => print_report hazardous_asteroids ;; ret (Some tt)
  end.

End Script.

(** ** Vocabulary of the statements *)

(** [not math.isnan(x)] *)
Definition nonnan (x : float) : Prop := is_nan x = false.

(** Two floats are the same value: identical, or equal under Python's
    [==] (which [0.0] and [-0.0] are). *)
Definition same_value (x y : float) : Prop := x = y \/ (x =? y)%float = true.

(** [x <= y] *)
Definition fle (x y : float) : Prop := (x <=? y)%float = true.

(** A zero of either sign. *)
Definition zeroish (x : float) : Prop := exists s, Prim2SF x = S754_zero s.

(** Every item is [<=] every later item. *)
Definition ascending (l : list float) : Prop := StronglySorted fle l.

(** The world after more lines have been printed. *)
Definition emit (w : world) (lines : list string) : world :=
  {| sent := sent w; stdout := stdout w ++ lines |}.

(** The world after one more request has been sent. *)
Definition send (w : world) (q : request) : world :=
  {| sent := sent w ++ [q]; stdout := stdout w |}.

(** The window the scanner asks for when its [end_date] is [e]. *)
Definition window (strftime : Z -> string) (e : Z) : request :=
  {| start_date_param := strftime (e - 1); end_date_param := strftime e |}.

(** The windows of [n] consecutive turns of the loop, the first with
    [end_date = e]: each two days long, each one day before the last. *)
Definition windows (strftime : Z -> string) (e : Z) (n : nat) : list request :=
  map (fun k => window strftime (e - Z.of_nat k)) (seq 0 n).

(** The line of the report for one collected entry. *)
Definition report_line (entry : string * string) : string :=
  (fst entry ++ ": " ++ snd entry)%string.

(** The lines [display_asteroid_information] prints for one asteroid and
    for one date of the feed. *)
Definition asteroid_lines (a : asteroid) : list string :=
  [" ---------- "; "Name: " ++ name a; "ID: " ++ id a]%string
  ++ map (fun c => ("Close approach date (full): " ++ close_approach_date_full c)%string)
         (close_approach_data a).

Definition date_lines (entry : string * list asteroid) : list string :=
  [("---------- Asteroids approach date: " ++ fst entry ++ " ----------")%string]
  ++ flat_map asteroid_lines (snd entry) ++ [EmptyString].

(** The message of the exception raised on a status other than 200. *)
Definition status_error (r : response) : exn :=
  Exception ("Error " ++ str (status_code r) ++ ": " ++ reason r)%string.

(** The hazardous asteroids of one date, as report entries. *)
Definition hazardous_entries (date : string) (asteroids : list asteroid)
  : list (string * string) :=
  map (fun a => (date, name a)) (filter is_potentially_hazardous_asteroid asteroids).

(** No asteroid of the feed is flagged hazardous. *)
Definition no_hazard (neo : feed) : Prop :=
  Forall (fun entry => Forall (fun a => is_potentially_hazardous_asteroid a = false)
                              (snd entry)) neo.

(** The feed lists no asteroid at all. *)
Definition no_asteroid (neo : feed) : Prop :=
  Forall (fun entry => snd entry = []) neo.

(** A service whose every response carries a feed in which no asteroid is
    flagged hazardous. *)
Definition never_hazardous (web : list request -> request -> response) : Prop :=
  forall history q, exists neo,
      near_earth_objects (web history q) = Some neo /\ no_hazard neo.

(** The item in the middle of the sorted list, or the average of the two
    items in the middle. *)
Definition middle (velocities : list float) : float :=
  let n := List.length velocities in
  let s := sorted velocities in
  if Nat.odd n then nth (n / 2) s 0%float
  else ((nth (n / 2) s 0 + nth (n / 2 - 1) s 0) / 2)%float.

(** ** Concrete feeds, used by the examples *)

(** [strftime('%Y-%m-%d')] on ordinals, by the usual civil-calendar
    arithmetic on days counted from 1 March of year 0. *)
Definition iso_date (ordinal : Z) : string :=
  let z := ordinal + 305 in
  let era := z / 146097 in
  let doe := z - era * 146097 in
  let yoe := (doe - doe / 1460 + doe / 36524 - doe / 146096) / 365 in
  let doy := doe - (365 * yoe + yoe / 4 - yoe / 100) in
  let mp := (5 * doy + 2) / 153 in
  let d := doy - (153 * mp + 2) / 5 + 1 in
  let m := if mp <? 10 then mp + 3 else mp - 9 in
  let y := yoe + era * 400 + (if m <=? 2 then 1 else 0) in
  let two n := (str (n / 10) ++ str (n mod 10))%string in
  (two (y / 100) ++ two (y mod 100) ++ "-" ++ two m ++ "-" ++ two d)%string.

(** A service that gives the same answer to every request. *)
Definition always (r : response) : list request -> request -> response :=
  fun _ _ => r.

Definition ok_response (neo : feed) : response :=
  {| status_code := 200; reason := "OK"; near_earth_objects := Some neo |}.

Definition not_found : response :=
  {| status_code := 404; reason := "Not Found"; near_earth_objects := None |}.

(** What the service answers over its rate limit: an error object. *)
Definition too_many_requests : response :=
  {| status_code := 429; reason := "Too Many Requests"; near_earth_objects := None |}.

Definition rock (n : string) (hazardous : bool) : asteroid :=
  {| name := n; id := "0"; is_potentially_hazardous_asteroid := hazardous;
     close_approach_data := [] |}.

(** The single-asteroid feed of the end-to-end scenario. *)
Definition scenario_feed : feed :=
  [("2019-10-31"%string,
    [{| name := "A"; id := "1"; is_potentially_hazardous_asteroid := false;
        close_approach_data :=
          [{| close_approach_date_full := "2019-Oct-31 00:00";
              kilometers_per_second := "5.0" |}] |}])].

(** Dates without a single asteroid. *)
Definition empty_days : feed :=
  [("2020-09-10"%string, []); ("2020-09-11"%string, [])].

(** One date with four hazardous asteroids, followed by another date. *)
Definition busy_feed : feed :=
  [("2024-04-30"%string,
    [rock "P" true; rock "Q" true; rock "R" false; rock "S" true; rock "T" true]);
   ("2024-05-01"%string, [rock "U" true])].

(** A service that answers 503 and still sends a feed. *)
Definition unavailable_with_feed : response :=
  {| status_code := 503; reason := "Service Unavailable";
     near_earth_objects := Some busy_feed |}.

(** [float] on the few strings the examples use. *)
Definition float_of_digits (s : string) : option float :=
  if String.eqb s "5.0" then Some 5%float
  else if String.eqb s "3.0" then Some 3%float
  else if String.eqb s "7.0" then Some 7%float
  else None.

Definition no_format (x : float) : string := "?"%string.

Definition fresh : world := {| sent := []; stdout := [] |}.

(** 1 May 2024 *)
Definition may_day : Z := 739007.

(** ** The entry point (lines 151-166) *)

(** The three demonstration calls, with the date literals of the script;
    an exception raised by one call ends the run.  The second call passes
    [start_date_q2] twice, as line 162 does. *)
Definition main (web : list request -> request -> response)
           (float_of_string : string -> option float)
           (py_sum : list float -> float) (format_2f : float -> string)
           (strftime : Z -> string) (today : Z) : M (option unit) :=
  let start_date_q1 := "2019-10-31"%string in
  let end_date_q1 := "2019-11-02"%string in
  display_asteroid_information web start_date_q1 end_date_q1 ;;
  let start_date_q2 := "2020-09-10"%string in
  let end_date_q2 := "2020-09-17"%string in
  display_asteroid_properties web float_of_string py_sum format_2f
                              start_date_q2 start_date_q2 ;;
  display_recent_hazardous_asteroids web strftime today.

(** ** Further vocabulary *)

(** [v] is what line 76 reads from asteroid [a]: the parsed velocity of
    its first close approach. *)
Definition first_velocity_is (float_of_string : string -> option float)
           (a : asteroid) (v : float) : Prop :=
  exists c rest, close_approach_data a = c :: rest
                 /\ float_of_string (kilometers_per_second c) = Some v.

(** The asteroids of a feed, in the order the loops visit them. *)
Definition asteroids_of (neo : feed) : list asteroid := flat_map snd neo.

(** The hazardous entries of the first [k] dates of a feed. *)
Definition entries_upto (k : nat) (neo : feed) : list (string * string) :=
  flat_map (fun entry => hazardous_entries (fst entry) (snd entry)) (firstn k neo).


(** The header of the report. *)
Definition report_header (strftime : Z -> string) (today : Z) : string :=
  ("The three most recent hazardous asteroids As of today "
     ++ strftime today ++ " are:")%string.

(** The four lines [display_asteroid_properties] prints. *)
Definition statistics_lines (format_2f : float -> string)
           (fastest slowest mean median : float) : list string :=
  [ "Fastest velocity: " ++ format_2f fastest ++ " kilometers_per_second";
    "Slowest velocity: " ++ format_2f slowest ++ " kilometers_per_second";
    "Mean velocity: " ++ format_2f mean ++ " kilometers_per_second";
    "Median velocity: " ++ format_2f median ++ " kilometers_per_second" ]%string.

(** A service that answers a request with its two dates, first the start
    date, each with the asteroids [day] lists for it. *)
Definition two_day_service (day : string -> list asteroid)
  : list request -> request -> response :=
  fun _ q => ok_response [(start_date_param q, day (start_date_param q));
                          (end_date_param q, day (end_date_param q))].

(** Two hazardous asteroids on 30 April 2024 and nothing on the days
    around it. *)
Definition april_30 (date : string) : list asteroid :=
  if String.eqb date "2024-04-30" then [rock "P" true; rock "Q" true] else [].

(** A 200 whose body is an object without the feed. *)
Definition ok_without_feed : response :=
  {| status_code := 200; reason := "OK"; near_earth_objects := None |}.

(** A feed whose second asteroid has no close approach. *)
Definition broken_feed : feed :=
  [("2020-09-10"%string,
    [{| name := "A"; id := "1"; is_potentially_hazardous_asteroid := false;
        close_approach_data :=
          [{| close_approach_date_full := "2020-Sep-10 00:00";
              kilometers_per_second := "5.0" |}] |};
     rock "B" false])].

(** A feed whose only asteroid has a velocity that is no number. *)
Definition unparsable_feed : feed :=
  [("2020-09-10"%string,
    [{| name := "A"; id := "1"; is_potentially_hazardous_asteroid := false;
        close_approach_data :=
          [{| close_approach_date_full := "2020-Sep-10 00:00";
              kilometers_per_second := "fast" |}] |}])].

(** * Verification *)

(** ** The order of binary64 numbers

    Facts about [<?], [<=?] and [=?] on primitive floats, read off the
    comparison of their specification ([SFcompare]). *)

Lemma SFcompare_opp a b : SFcompare b a = option_map CompOpp (SFcompare a b).
Proof.
  destruct a as [s| s| |s m e], b as [s'| s'| |s' m' e']; simpl; try reflexivity;
    try (destruct s; reflexivity); try (destruct s'; reflexivity);
    try (destruct s, s'; reflexivity).
  destruct s, s'; simpl; try reflexivity;
    rewrite (Z.compare_antisym e e'); destruct (e ?= e')%Z; simpl; try reflexivity;
    change (Pos.compare_cont Eq m' m) with (Pos.compare m' m);
    change (Pos.compare_cont Eq m m') with (Pos.compare m m');
    rewrite (Pos.compare_antisym m m'); destruct (m ?= m')%positive; reflexivity.
Qed.

Lemma SFcompare_lt_trans a b c :
  SFcompare a b = Some Lt -> SFcompare b c = Some Lt -> SFcompare a c = Some Lt.
Proof.
  destruct a as [s| s| |s m e], b as [s'| s'| |s' m' e'], c as [s''| s''| |s'' m'' e''];
    simpl; try discriminate; try reflexivity;
    try (destruct s; try discriminate; try reflexivity);
    try (destruct s'; try discriminate; try reflexivity);
    try (destruct s''; try discriminate; try reflexivity).
  all: change (Pos.compare_cont Eq) with Pos.compare.
  all: destruct (Z.compare_spec e e'), (Z.compare_spec e' e''), (Z.compare_spec e e'');
    try lia; try discriminate; try reflexivity; subst.
  all: destruct (Pos.compare_spec m m'), (Pos.compare_spec m' m''), (Pos.compare_spec m m'');
    simpl; try lia; try discriminate; try reflexivity.
Qed.

Lemma SFcompare_eq_inv a b :
  SFcompare a b = Some Eq ->
  a = b \/ (exists s s', a = S754_zero s /\ b = S754_zero s').
Proof.
  destruct a as [s| s| |s m e], b as [s'| s'| |s' m' e']; simpl; try discriminate;
    try (destruct s; discriminate); try (destruct s'; discriminate).
  - right; eauto.
  - destruct s, s'; try discriminate; left; reflexivity.
  - change (Pos.compare_cont Eq) with Pos.compare.
    destruct s, s'; try discriminate;
      destruct (Z.compare_spec e e'); try discriminate;
      destruct (Pos.compare_spec m m'); try discriminate; subst; left; reflexivity.
Qed.

Lemma SFcompare_zero_l s s' c : SFcompare (S754_zero s) c = SFcompare (S754_zero s') c.
Proof. destruct c; reflexivity. Qed.

Lemma SFcompare_refl a : a <> S754_nan -> SFcompare a a = Some Eq.
Proof.
  destruct a as [s| s| |s m e]; simpl; try congruence.
  - destruct s; reflexivity.
  - change (Pos.compare_cont Eq) with Pos.compare.
    rewrite Z.compare_refl, Pos.compare_refl. destruct s; reflexivity.
Qed.

Lemma SFcompare_some a b :
  a <> S754_nan -> b <> S754_nan -> exists c, SFcompare a b = Some c.
Proof. destruct a, b; simpl; try congruence; eauto. Qed.

Section FloatOrder.
Local Open Scope float_scope.

Lemma nonnan_spec x : nonnan x <-> Prim2SF x <> S754_nan.
Proof.
  unfold nonnan, is_nan. rewrite eqb_spec. unfold SFeqb. split.
  - intros H E. rewrite E in H. discriminate.
  - intros H. rewrite (SFcompare_refl _ H). reflexivity.
Qed.

Lemma same_value_inv x y : same_value x y ->
  x = y \/ (exists s s', Prim2SF x = S754_zero s /\ Prim2SF y = S754_zero s').
Proof.
  intros [E|E]; [now left|]. rewrite eqb_spec in E. unfold SFeqb in E.
  destruct (SFcompare (Prim2SF x) (Prim2SF y)) as [[]|] eqn:C; try discriminate.
  destruct (SFcompare_eq_inv _ _ C) as [H|H]; [left; now apply Prim2SF_inj | now right].
Qed.

Lemma zeros_same_value x y s s' :
  Prim2SF x = S754_zero s -> Prim2SF y = S754_zero s' -> same_value x y.
Proof. intros Hx Hy. right. rewrite eqb_spec, Hx, Hy. reflexivity. Qed.

Lemma same_value_refl x : same_value x x.
Proof. now left. Qed.

Lemma same_value_sym x y : same_value x y -> same_value y x.
Proof.
  intros H. destruct (same_value_inv _ _ H) as [->|(s & s' & E & E')].
  - apply same_value_refl.
  - eapply zeros_same_value; eauto.
Qed.

Lemma same_value_trans x y z : same_value x y -> same_value y z -> same_value x z.
Proof.
  intros H1 H2.
  destruct (same_value_inv _ _ H1) as [->|(s & s' & E & E')]; [assumption|].
  destruct (same_value_inv _ _ H2) as [<-|(t & t' & F & F')]; [assumption|].
  eapply zeros_same_value; eauto.
Qed.

Lemma ltb_same_value_r x y y' : same_value y y' -> (x <? y) = (x <? y').
Proof.
  intros H. destruct (same_value_inv _ _ H) as [->|(s & s' & E & E')]; [reflexivity|].
  rewrite !ltb_spec. unfold SFltb. rewrite E, E'.
  rewrite (SFcompare_opp (S754_zero s) (Prim2SF x)),
          (SFcompare_opp (S754_zero s') (Prim2SF x)).
  now rewrite (SFcompare_zero_l s s').
Qed.

Lemma ltb_same_value_l x x' y : same_value x x' -> (x <? y) = (x' <? y).
Proof.
  intros H. destruct (same_value_inv _ _ H) as [->|(s & s' & E & E')]; [reflexivity|].
  rewrite !ltb_spec. unfold SFltb. rewrite E, E'. now rewrite (SFcompare_zero_l s s').
Qed.

Lemma ltb_asym x y : (x <? y) = true -> (y <? x) = false.
Proof.
  rewrite !ltb_spec. unfold SFltb. rewrite (SFcompare_opp (Prim2SF x) (Prim2SF y)).
  destruct (SFcompare (Prim2SF x) (Prim2SF y)) as [[]|]; simpl; congruence.
Qed.

Lemma ltb_trans x y z : (x <? y) = true -> (y <? z) = true -> (x <? z) = true.
Proof.
  rewrite !ltb_spec. unfold SFltb. intros H1 H2.
  destruct (SFcompare (Prim2SF x) (Prim2SF y)) as [[]|] eqn:C1; try discriminate.
  destruct (SFcompare (Prim2SF y) (Prim2SF z)) as [[]|] eqn:C2; try discriminate.
  now rewrite (SFcompare_lt_trans _ _ _ C1 C2).
Qed.

Lemma ltb_tricho x y : nonnan x -> nonnan y ->
  (x <? y) = false -> (y <? x) = false -> (x =? y) = true.
Proof.
  rewrite !nonnan_spec, !ltb_spec, eqb_spec. unfold SFltb, SFeqb. intros Hx Hy.
  rewrite (SFcompare_opp (Prim2SF x) (Prim2SF y)).
  destruct (SFcompare_some _ _ Hx Hy) as [c ->]. destruct c; simpl; congruence.
Qed.

Lemma leb_ltb x y : nonnan x -> nonnan y -> (x <=? y) = negb (y <? x).
Proof.
  rewrite !nonnan_spec, ltb_spec, leb_spec. unfold SFltb, SFleb. intros Hx Hy.
  rewrite (SFcompare_opp (Prim2SF x) (Prim2SF y)).
  destruct (SFcompare_some _ _ Hx Hy) as [c ->]. destruct c; reflexivity.
Qed.

(** [y < z] and not [x < z] give [y < x]. *)
Lemma ltb_le_trans x y z : nonnan x -> nonnan z ->
  (y <? z) = true -> (x <? z) = false -> (y <? x) = true.
Proof.
  intros Hx Hz H1 H2.
  destruct (y <? x) eqn:E; [reflexivity|].
  destruct (z <? x) eqn:E2.
  - rewrite (ltb_trans _ _ _ H1 E2) in E. discriminate.
  - pose proof (ltb_tricho x z Hx Hz H2 E2) as Q.
    rewrite (ltb_same_value_r y x z (or_intror Q)) in E. congruence.
Qed.

Lemma fle_refl x : nonnan x -> fle x x.
Proof.
  intros Hx. unfold fle. rewrite (leb_ltb _ _ Hx Hx).
  destruct (x <? x) eqn:E; [|reflexivity].
  pose proof (ltb_asym _ _ E). congruence.
Qed.

Lemma fle_trans x y z : nonnan x -> nonnan y -> nonnan z ->
  fle x y -> fle y z -> fle x z.
Proof.
  unfold fle. intros Hx Hy Hz.
  rewrite (leb_ltb _ _ Hx Hy), (leb_ltb _ _ Hy Hz), (leb_ltb _ _ Hx Hz).
  intros H1 H2. destruct (z <? x) eqn:E; [|reflexivity].
  apply negb_true_iff in H1.
  rewrite (ltb_le_trans y z x Hy Hx E H1) in H2. discriminate.
Qed.

Lemma fle_antisym x y : nonnan x -> nonnan y -> fle x y -> fle y x -> same_value x y.
Proof.
  unfold fle. intros Hx Hy. rewrite (leb_ltb _ _ Hx Hy), (leb_ltb _ _ Hy Hx).
  intros H1 H2. apply negb_true_iff in H1, H2. right. now apply ltb_tricho.
Qed.

End FloatOrder.

(** ** [sorted] *)

Section SortFacts.
Local Open Scope float_scope.

Lemma insort_perm x l : Permutation (insort x l) (x :: l).
Proof.
  induction l as [|y l IH]; simpl; [reflexivity|].
  destruct (x <? y); [reflexivity|].
  rewrite IH. apply perm_swap.
Qed.

Lemma insort_all_perm l placed :
  Permutation (fold_left (fun placed x => insort x placed) l placed) (l ++ placed).
Proof.
  revert placed. induction l as [|x l IH]; intros placed; simpl; [reflexivity|].
  rewrite IH, insort_perm. symmetry. apply Permutation_middle.
Qed.

Lemma sorted_perm l : Permutation (sorted l) l.
Proof. unfold sorted. rewrite insort_all_perm. now rewrite app_nil_r. Qed.

Lemma sorted_length l : List.length (sorted l) = List.length l.
Proof. apply Permutation_length, sorted_perm. Qed.

Lemma sorted_nonnan l : Forall nonnan l -> Forall nonnan (sorted l).
Proof. intros H. eapply Permutation_Forall; [symmetry; apply sorted_perm|exact H]. Qed.

Lemma insort_ascending x l :
  nonnan x -> Forall nonnan l -> ascending l -> ascending (insort x l).
Proof.
  intros Hx Hl Hs. induction Hs as [|y l Hs IH Hy]; simpl.
  - constructor; constructor.
  - inversion Hl as [|? ? Ny Nl]; subst.
    destruct (x <? y) eqn:E.
    + assert (Hxy : fle x y).
      { unfold fle. rewrite (leb_ltb _ _ Hx Ny), (ltb_asym _ _ E). reflexivity. }
      constructor; [constructor; assumption|].
      constructor; [exact Hxy|].
      rewrite Forall_forall in Hy, Nl |- *. intros z Hz.
      apply (fle_trans x y z); auto.
    + constructor; [now apply IH|].
      eapply Permutation_Forall; [symmetry; apply insort_perm|].
      constructor; [|exact Hy].
      unfold fle. rewrite (leb_ltb _ _ Ny Hx), E. reflexivity.
Qed.

Lemma insort_all_ascending l placed :
  Forall nonnan l -> Forall nonnan placed -> ascending placed ->
  ascending (fold_left (fun placed x => insort x placed) l placed).
Proof.
  revert placed. induction l as [|x l IH]; intros placed Hl Hp Hs; simpl; [exact Hs|].
  inversion Hl; subst. apply IH; auto.
  - eapply Permutation_Forall; [symmetry; apply insort_perm|]. now constructor.
  - now apply insort_ascending.
Qed.

Lemma sorted_ascending l : Forall nonnan l -> ascending (sorted l).
Proof. intros H. apply insort_all_ascending; auto. constructor. Qed.

End SortFacts.

(** ** The median *)

Lemma getitem_nth {A : Type} (l : list A) (i : nat) (d : A) :
  (i < List.length l)%nat -> getitem l (Z.of_nat i) = Ok (nth i l d).
Proof.
  intros H. unfold getitem.
  assert (E0 : (Z.of_nat i <? 0) = false) by (apply Z.ltb_ge; lia).
  rewrite !E0, Nat2Z.id.
  destruct (nth_error l i) as [x|] eqn:E.
  - now rewrite (nth_error_nth _ _ d E).
  - apply nth_error_None in E. lia.
Qed.

Lemma odd_mod2 n : Nat.odd n = negb (Z.of_nat n mod 2 =? 0).
Proof.
  destruct (Nat.odd n) eqn:E.
  - apply Nat.odd_spec in E. destruct E as [k ->].
    replace (Z.of_nat (2 * k + 1)) with (1 + Z.of_nat k * 2) by lia.
    now rewrite Z_mod_plus_full.
  - apply (f_equal negb) in E. rewrite Nat.negb_odd in E.
    apply Nat.even_spec in E. destruct E as [k ->].
    replace (Z.of_nat (2 * k)) with (0 + Z.of_nat k * 2) by lia.
    now rewrite Z_mod_plus_full.
Qed.

Lemma median_velocity_middle velocities :
  velocities <> [] -> median_velocity velocities = Ok (middle velocities).
Proof.
  intros Hne. unfold median_velocity, middle.
  rewrite sorted_length. set (n := List.length velocities).
  assert (Hn : (0 < n)%nat) by (destruct velocities; [congruence | simpl in n; lia]).
  rewrite odd_mod2.
  change 2 with (Z.of_nat 2) at 2 3 4. rewrite <- Nat2Z.inj_div.
  assert (Hhalf : (n / 2 < n)%nat) by (apply Nat.div_lt; lia).
  assert (Hone : (Z.of_nat n mod 2 =? 0) = true -> (1 <= n / 2)%nat).
  { intros E. apply Z.eqb_eq in E.
    assert (2 <= n)%nat by (destruct n as [|[|k]]; [lia|discriminate|lia]).
    apply (Nat.Div0.div_le_mono 2 n 2). assumption. }
  set (h := (n / 2)%nat) in *.
  destruct (Z.of_nat n mod 2 =? 0) eqn:E; simpl.
  - specialize (Hone eq_refl).
    rewrite (getitem_nth _ _ 0%float) by (rewrite sorted_length; exact Hhalf).
    replace (Z.of_nat h - 1) with (Z.of_nat (h - 1)) by lia.
    rewrite (getitem_nth _ _ 0%float) by (rewrite sorted_length; fold n; lia).
    reflexivity.
  - apply getitem_nth. rewrite sorted_length. exact Hhalf.
Qed.

(** ** [max] and [min] *)

Section Extremes.
Local Open Scope float_scope.

Lemma max_scan rest : forall m,
  nonnan m -> Forall nonnan rest ->
  let r := fold_left (fun m item => if m <? item then item else m) rest m in
  In r (m :: rest) /\ fle m r /\ Forall (fun y => fle y r) rest.
Proof.
  induction rest as [|item rest IH]; intros m Hm Hrest; simpl.
  - repeat split; [now left | now apply fle_refl | constructor].
  - inversion Hrest as [|? ? Hi Hr]; subst.
    set (m' := if m <? item then item else m).
    assert (Hm' : nonnan m') by (unfold m'; destruct (m <? item); assumption).
    assert (Hmm' : fle m m').
    { unfold m'. destruct (m <? item) eqn:E; [|now apply fle_refl].
      unfold fle. rewrite (leb_ltb _ _ Hm Hi), (ltb_asym _ _ E). reflexivity. }
    assert (Him' : fle item m').
    { unfold m'. destruct (m <? item) eqn:E; [now apply fle_refl|].
      unfold fle. rewrite (leb_ltb _ _ Hi Hm), E. reflexivity. }
    destruct (IH m' Hm' Hr) as (Hin & Hle & Hall).
    assert (Nr : nonnan (fold_left (fun m item => if m <? item then item else m) rest m')).
    { destruct Hin as [<-|Hin]; [assumption|].
      rewrite Forall_forall in Hr. now apply Hr. }
    repeat split.
    + destruct Hin as [<-|Hin]; [|now right; right].
      unfold m'. destruct (m <? item); [right; now left | now left].
    + now apply (fle_trans m m' _).
    + constructor; [now apply (fle_trans item m' _) | exact Hall].
Qed.

Lemma min_scan rest : forall m,
  nonnan m -> Forall nonnan rest ->
  let r := fold_left (fun m item => if item <? m then item else m) rest m in
  In r (m :: rest) /\ fle r m /\ Forall (fun y => fle r y) rest.
Proof.
  induction rest as [|item rest IH]; intros m Hm Hrest; simpl.
  - repeat split; [now left | now apply fle_refl | constructor].
  - inversion Hrest as [|? ? Hi Hr]; subst.
    set (m' := if item <? m then item else m).
    assert (Hm' : nonnan m') by (unfold m'; destruct (item <? m); assumption).
    assert (Hmm' : fle m' m).
    { unfold m'. destruct (item <? m) eqn:E; [|now apply fle_refl].
      unfold fle. rewrite (leb_ltb _ _ Hi Hm), (ltb_asym _ _ E). reflexivity. }
    assert (Him' : fle m' item).
    { unfold m'. destruct (item <? m) eqn:E; [now apply fle_refl|].
      unfold fle. rewrite (leb_ltb _ _ Hm Hi), E. reflexivity. }
    destruct (IH m' Hm' Hr) as (Hin & Hle & Hall).
    assert (Nr : nonnan (fold_left (fun m item => if item <? m then item else m) rest m')).
    { destruct Hin as [<-|Hin]; [assumption|].
      rewrite Forall_forall in Hr. now apply Hr. }
    repeat split.
    + destruct Hin as [<-|Hin]; [|now right; right].
      unfold m'. destruct (item <? m); [right; now left | now left].
    + now apply (fle_trans _ m' m).
    + constructor; [now apply (fle_trans _ m' item) | exact Hall].
Qed.

Lemma fastest_bound velocities :
  velocities <> [] -> Forall nonnan velocities ->
  exists hi, fastest_velocity velocities = Ok hi /\ In hi velocities
             /\ forall x, In x velocities -> fle x hi.
Proof.
  intros Hne Hnn. destruct velocities as [|x rest]; [congruence|].
  inversion Hnn as [|? ? Hx Hr]; subst.
  destruct (max_scan rest x Hx Hr) as (Hin & Hle & Hall).
  eexists; split; [reflexivity|]. split; [exact Hin|].
  intros y [<-|Hy]; [exact Hle|]. rewrite Forall_forall in Hall. now apply Hall.
Qed.

Lemma slowest_bound velocities :
  velocities <> [] -> Forall nonnan velocities ->
  exists lo, slowest_velocity velocities = Ok lo /\ In lo velocities
             /\ forall x, In x velocities -> fle lo x.
Proof.
  intros Hne Hnn. destruct velocities as [|x rest]; [congruence|].
  inversion Hnn as [|? ? Hx Hr]; subst.
  destruct (min_scan rest x Hx Hr) as (Hin & Hle & Hall).
  eexists; split; [reflexivity|]. split; [exact Hin|].
  intros y [<-|Hy]; [exact Hle|]. rewrite Forall_forall in Hall. now apply Hall.
Qed.

Lemma ascending_nth l : ascending l -> forall i j,
  (i < j)%nat -> (j < List.length l)%nat -> fle (nth i l 0) (nth j l 0).
Proof.
  induction 1 as [|x l Hs IH Hx]; intros i j Hij Hj; simpl in Hj; [lia|].
  destruct j as [|j]; [lia|]. destruct i as [|i]; simpl.
  - rewrite Forall_forall in Hx. apply Hx, nth_In. lia.
  - apply IH; lia.
Qed.

End Extremes.

(** ** Reordering the input *)

Section Reordering.
Local Open Scope float_scope.

Lemma same_value_nonnan x y : same_value x y -> nonnan x -> nonnan y.
Proof.
  intros H Hx. destruct (same_value_inv _ _ H) as [<-|(s & s' & _ & E)]; [assumption|].
  apply nonnan_spec. rewrite E. discriminate.
Qed.

Lemma Forall2_same_value_refl l : Forall2 same_value l l.
Proof. induction l; constructor; auto using same_value_refl. Qed.

Lemma Forall2_same_value_trans l1 l2 l3 :
  Forall2 same_value l1 l2 -> Forall2 same_value l2 l3 -> Forall2 same_value l1 l3.
Proof.
  intros H. revert l3. induction H as [|x y l1 l2 Hxy _ IH]; intros l3 H3;
    inversion H3; subst; constructor; eauto using same_value_trans.
Qed.

Lemma Forall2_same_value_nth l l' i :
  Forall2 same_value l l' -> same_value (nth i l 0) (nth i l' 0).
Proof.
  intros H. revert i. induction H; intros [|i]; simpl; auto using same_value_refl.
Qed.

Lemma insort_same_value x l l' :
  Forall2 same_value l l' -> Forall2 same_value (insort x l) (insort x l').
Proof.
  induction 1 as [|y y' l l' Hy Hl IH]; simpl.
  - constructor; [apply same_value_refl | constructor].
  - rewrite <- (ltb_same_value_r x y y' Hy).
    destruct (x <? y).
    + constructor; [apply same_value_refl|]. now constructor.
    + now constructor.
Qed.

Lemma insort_nonnan x l : nonnan x -> Forall nonnan l -> Forall nonnan (insort x l).
Proof.
  intros Hx Hl. eapply Permutation_Forall; [symmetry; apply insort_perm|].
  now constructor.
Qed.

(** Two insertions commute, up to the order of two equal values. *)
Lemma insort_comm x y l :
  nonnan x -> nonnan y -> Forall nonnan l ->
  Forall2 same_value (insort x (insort y l)) (insort y (insort x l)).
Proof.
  intros Hx Hy Hl. induction Hl as [|z l Hz Hl IH]; simpl.
  - destruct (x <? y) eqn:Exy, (y <? x) eqn:Eyx; simpl;
      try apply Forall2_same_value_refl.
    + rewrite (ltb_asym _ _ Exy) in Eyx. discriminate.
    + pose proof (ltb_tricho x y Hx Hy Exy Eyx) as Q.
      constructor; [apply same_value_sym; right; exact Q|].
      constructor; [right; exact Q|]. constructor.
  - destruct (y <? z) eqn:Eyz, (x <? z) eqn:Exz; simpl; rewrite ?Eyz, ?Exz.
    + destruct (x <? y) eqn:Exy, (y <? x) eqn:Eyx; simpl; rewrite ?Eyz, ?Exz;
        try apply Forall2_same_value_refl.
      * rewrite (ltb_asym _ _ Exy) in Eyx. discriminate.
      * pose proof (ltb_tricho x y Hx Hy Exy Eyx) as Q.
        constructor; [apply same_value_sym; right; exact Q|].
        constructor; [right; exact Q|]. apply Forall2_same_value_refl.
    + rewrite (ltb_asym _ _ (ltb_le_trans x y z Hx Hz Eyz Exz)).
      apply Forall2_same_value_refl.
    + rewrite (ltb_asym _ _ (ltb_le_trans y x z Hy Hz Exz Eyz)).
      apply Forall2_same_value_refl.
    + constructor; [apply same_value_refl | exact IH].
Qed.

Lemma insort_all_same_value l : forall placed placed',
  Forall2 same_value placed placed' ->
  Forall2 same_value (fold_left (fun placed x => insort x placed) l placed)
                     (fold_left (fun placed x => insort x placed) l placed').
Proof.
  induction l as [|x l IH]; intros placed placed' H; simpl; [exact H|].
  apply IH, insort_same_value, H.
Qed.

Lemma insort_all_reorder l l' :
  Permutation l l' -> Forall nonnan l -> forall placed, Forall nonnan placed ->
  Forall2 same_value (fold_left (fun placed x => insort x placed) l placed)
                     (fold_left (fun placed x => insort x placed) l' placed).
Proof.
  induction 1 as [|x l l' Hp IH|x y l|l l' l'' H1 IH1 H2 IH2]; intros Hl placed Hpl.
  - apply Forall2_same_value_refl.
  - inversion Hl; subst. simpl. apply IH; auto using insort_nonnan.
  - inversion Hl as [|? ? Hy Hl']; subst. inversion Hl' as [|? ? Hx Hl'']; subst.
    simpl. apply insort_all_same_value, insort_comm; assumption.
  - eapply Forall2_same_value_trans; [apply IH1; assumption|].
    apply IH2; [|assumption]. eapply Permutation_Forall; eassumption.
Qed.

Lemma sorted_reorder l l' :
  Permutation l l' -> Forall nonnan l -> Forall2 same_value (sorted l) (sorted l').
Proof. intros Hp Hl. apply insort_all_reorder; auto. Qed.

End Reordering.

Section Averages.
Local Open Scope float_scope.

Lemma same_value_cases x y : same_value x y -> x = y \/ (zeroish x /\ zeroish y).
Proof.
  intros H. destruct (same_value_inv _ _ H) as [E|(s & s' & E & E')]; [now left|].
  right. split; eexists; eassumption.
Qed.

Lemma add_zero_l b b' a :
  zeroish b -> zeroish b' -> b + a = b' + a \/ (zeroish (b + a) /\ zeroish (b' + a)).
Proof.
  intros [s E] [s' E'].
  destruct (Prim2SF a) as [t|t| |t m e] eqn:Ea.
  - right. unfold zeroish. rewrite !add_spec, E, E', Ea. unfold SF64add. simpl.
    split; [destruct s, t | destruct s', t]; eexists; reflexivity.
  - left. apply Prim2SF_inj. now rewrite !add_spec, E, E', Ea.
  - left. apply Prim2SF_inj. now rewrite !add_spec, E, E', Ea.
  - left. apply Prim2SF_inj. now rewrite !add_spec, E, E', Ea.
Qed.

Lemma add_zero_r a a' b :
  zeroish a -> zeroish a' -> b + a = b + a' \/ (zeroish (b + a) /\ zeroish (b + a')).
Proof.
  intros [s E] [s' E'].
  destruct (Prim2SF b) as [t|t| |t m e] eqn:Eb.
  - right. unfold zeroish. rewrite !add_spec, E, E', Eb. unfold SF64add. simpl.
    split; [destruct t, s | destruct t, s']; eexists; reflexivity.
  - left. apply Prim2SF_inj. now rewrite !add_spec, E, E', Eb.
  - left. apply Prim2SF_inj. now rewrite !add_spec, E, E', Eb.
  - left. apply Prim2SF_inj. now rewrite !add_spec, E, E', Eb.
Qed.

Lemma add_zeros a b : zeroish a -> zeroish b -> zeroish (b + a).
Proof.
  intros [s E] [t F]. unfold zeroish. rewrite add_spec, E, F. unfold SF64add. simpl.
  destruct t, s; eexists; reflexivity.
Qed.

Lemma add_alike a a' b b' :
  same_value a a' -> same_value b b' ->
  b + a = b' + a' \/ (zeroish (b + a) /\ zeroish (b' + a')).
Proof.
  intros Ha Hb.
  destruct (same_value_cases _ _ Ha) as [<-|[Za Za']],
           (same_value_cases _ _ Hb) as [<-|[Zb Zb']].
  - now left.
  - now apply add_zero_l.
  - now apply add_zero_r.
  - right. split; now apply add_zeros.
Qed.

Lemma half_alike x x' :
  x = x' \/ (zeroish x /\ zeroish x') -> same_value (x / 2) (x' / 2).
Proof.
  intros [->|[[s E] [s' E']]]; [apply same_value_refl|].
  apply (zeros_same_value _ _ (xorb s false) (xorb s' false));
    rewrite div_spec; [rewrite E | rewrite E']; reflexivity.
Qed.

Lemma middle_reorder l l' :
  Permutation l l' -> Forall nonnan l -> same_value (middle l) (middle l').
Proof.
  intros Hp Hl. unfold middle. rewrite <- (Permutation_length Hp).
  pose proof (sorted_reorder l l' Hp Hl) as Hs.
  destruct (Nat.odd (List.length l)).
  - now apply Forall2_same_value_nth.
  - apply half_alike, add_alike; now apply Forall2_same_value_nth.
Qed.

Lemma fastest_reorder l l' :
  l <> [] -> Forall nonnan l -> Permutation l l' ->
  exists hi hi', fastest_velocity l = Ok hi /\ fastest_velocity l' = Ok hi'
                 /\ same_value hi hi'.
Proof.
  intros Hne Hl Hp.
  assert (Hne' : l' <> []).
  { intros ->. apply Permutation_sym, Permutation_nil in Hp. contradiction. }
  assert (Hl' : Forall nonnan l') by (eapply Permutation_Forall; eassumption).
  destruct (fastest_bound l Hne Hl) as (hi & E & Hin & Hub).
  destruct (fastest_bound l' Hne' Hl') as (hi' & E' & Hin' & Hub').
  exists hi, hi'. repeat split; auto.
  rewrite Forall_forall in Hl, Hl'.
  apply fle_antisym; auto.
  - apply Hub'. eapply Permutation_in; eassumption.
  - apply Hub. eapply Permutation_in; [symmetry|]; eassumption.
Qed.

Lemma slowest_reorder l l' :
  l <> [] -> Forall nonnan l -> Permutation l l' ->
  exists lo lo', slowest_velocity l = Ok lo /\ slowest_velocity l' = Ok lo'
                 /\ same_value lo lo'.
Proof.
  intros Hne Hl Hp.
  assert (Hne' : l' <> []).
  { intros ->. apply Permutation_sym, Permutation_nil in Hp. contradiction. }
  assert (Hl' : Forall nonnan l') by (eapply Permutation_Forall; eassumption).
  destruct (slowest_bound l Hne Hl) as (lo & E & Hin & Hlb).
  destruct (slowest_bound l' Hne' Hl') as (lo' & E' & Hin' & Hlb').
  exists lo, lo'. repeat split; auto.
  rewrite Forall_forall in Hl, Hl'.
  apply fle_antisym; auto.
  - apply Hlb. eapply Permutation_in; [symmetry|]; eassumption.
  - apply Hlb'. eapply Permutation_in; eassumption.
Qed.

End Averages.

(** ** The aggregates: claims C4, C8 and C9 *)

Section Aggregates.
Local Open Scope float_scope.






(** C9, as the code has it.  Reordering a non-empty list without NaN
    leaves the fastest, the slowest and the median velocity the same
    values. *)
Theorem extremes_and_median_reorder (velocities velocities' : list float) :
  velocities <> [] -> Forall nonnan velocities ->
  Permutation velocities velocities' ->
  exists hi hi' lo lo' md md',
    fastest_velocity velocities = Ok hi
    /\ fastest_velocity velocities' = Ok hi' /\ same_value hi hi'
    /\ slowest_velocity velocities = Ok lo
    /\ slowest_velocity velocities' = Ok lo' /\ same_value lo lo'
    /\ median_velocity velocities = Ok md
    /\ median_velocity velocities' = Ok md' /\ same_value md md'.
Proof.
  intros Hne Hnn Hp.
  assert (Hne' : velocities' <> []).
  { intros ->. apply Permutation_sym, Permutation_nil in Hp. contradiction. }
  destruct (fastest_reorder _ _ Hne Hnn Hp) as (hi & hi' & E1 & E2 & E3).
  destruct (slowest_reorder _ _ Hne Hnn Hp) as (lo & lo' & F1 & F2 & F3).
  exists hi, hi', lo, lo', (middle velocities), (middle velocities').
  repeat split; auto using median_velocity_middle, middle_reorder.
Qed.

Lemma extremes_and_median_reorder_witness :
  exists hi hi' lo lo' md md',
    fastest_velocity [7; 3; 9; 1] = Ok hi
    /\ fastest_velocity [3; 7; 9; 1] = Ok hi' /\ same_value hi hi'
    /\ slowest_velocity [7; 3; 9; 1] = Ok lo
    /\ slowest_velocity [3; 7; 9; 1] = Ok lo' /\ same_value lo lo'
    /\ median_velocity [7; 3; 9; 1] = Ok md
    /\ median_velocity [3; 7; 9; 1] = Ok md' /\ same_value md md'.
Proof.
  apply (extremes_and_median_reorder [7; 3; 9; 1] [3; 7; 9; 1]);
    [discriminate | repeat constructor | apply perm_swap].
Defined.

(** C9 fails as stated.  [1e-16, 1e-16, 1.0, 1e16] is a reordering of
    [1e16, 1.0, 1e-16, 1e-16], and the two means differ, whichever way
    [sum] adds; and [max] of [nan, 1.0] is NaN while [max] of [1.0, nan]
    is 1.0. *)
Lemma mean_depends_on_order :
  Permutation [1e16; 1; 1e-16; 1e-16] [1e-16; 1e-16; 1; 1e16]
  /\ mean_velocity sum_left [1e16; 1; 1e-16; 1e-16] = Ok 2500000000000000
  /\ mean_velocity sum_left [1e-16; 1e-16; 1; 1e16] = Ok 2500000000000000.5
  /\ mean_velocity sum_compensated [1e16; 1; 1e-16; 1e-16] = Ok 2500000000000000
  /\ mean_velocity sum_compensated [1e-16; 1e-16; 1; 1e16] = Ok 2500000000000000.5
  /\ ~ same_value 2500000000000000 2500000000000000.5
  /\ Permutation [nan; 1] [1; nan]
  /\ fastest_velocity [nan; 1] = Ok nan
  /\ fastest_velocity [1; nan] = Ok 1
  /\ ~ same_value nan 1.
Proof.
  assert (Hdiff : forall x y : float, (x =? x) <> (y =? x) -> (x =? y) = false ->
                                      ~ same_value x y).
  { intros x y Hne Heq [H|H]; [subst y; now apply Hne | congruence]. }
  split.
  { apply (Permutation_cons_app [1e-16; 1e-16; 1] [] 1e16).
    apply (Permutation_cons_app [1e-16; 1e-16] [] 1). reflexivity. }
  repeat split; try reflexivity.
  - apply Hdiff; vm_compute; [discriminate | reflexivity].
  - apply perm_swap.
  - intros [H|H]; [|vm_compute in H; discriminate].
    apply (f_equal is_nan) in H. vm_compute in H. discriminate.
Qed.

End Aggregates.

(** ** The console *)

Lemma emit_nil w : emit w [] = w.
Proof. destruct w. unfold emit. simpl. now rewrite app_nil_r. Qed.

Lemma emit_emit w a b : emit (emit w a) b = emit w (a ++ b).
Proof. unfold emit. simpl. now rewrite app_assoc. Qed.

Lemma print_emit line w : print line w = (Ok tt, emit w [line]).
Proof. reflexivity. Qed.

(** A loop whose body only prints, prints the lines of its items in order. *)
Lemma for_each_emit {A : Type} (l : list A) (body : A -> M unit)
      (lines : A -> list string) :
  (forall x w, body x w = (Ok tt, emit w (lines x))) ->
  forall w, for_each l body w = (Ok tt, emit w (flat_map lines l)).
Proof.
  intros Hbody. induction l as [|x l IH]; intros w; simpl.
  - now rewrite emit_nil.
  - rewrite Hbody, IH, emit_emit. reflexivity.
Qed.

Lemma flat_map_singleton {A B : Type} (f : A -> B) (l : list A) :
  flat_map (fun x => [f x]) l = map f l.
Proof. induction l as [|x l IH]; simpl; [reflexivity | now rewrite IH]. Qed.

Lemma print_close_approaches_emit a w :
  print_close_approaches a w =
  (Ok tt, emit w (map (fun c => ("Close approach date (full): "
                                   ++ close_approach_date_full c)%string)
                      (close_approach_data a))).
Proof.
  unfold print_close_approaches.
  rewrite (for_each_emit _ _ (fun c => [("Close approach date (full): "
                                           ++ close_approach_date_full c)%string])).
  - now rewrite flat_map_singleton.
  - reflexivity.
Qed.

Lemma bind_run {A B : Type} (m : M A) (k : A -> M B) (w : world) :
  bind m k w = match m w with
               | (Ok a, w') => k a w'
               | (Raise e, w') => (Raise e, w')
               end.
Proof. reflexivity. Qed.

Lemma lift_run {A : Type} (o : outcome A) (w : world) : lift o w = (o, w).
Proof. reflexivity. Qed.

Lemma requests_get_send web q w :
  requests_get web q w = (Ok (web (sent w) q), send w q).
Proof. reflexivity. Qed.

(** One printing step of a sequence. *)
Ltac run_print := rewrite bind_run, print_emit; cbv beta iota.

Lemma print_asteroids_emit asteroids w :
  print_asteroids asteroids w = (Ok tt, emit w (flat_map asteroid_lines asteroids)).
Proof.
  unfold print_asteroids. apply for_each_emit. intros a w'.
  repeat run_print.
  rewrite print_close_approaches_emit, !emit_emit. reflexivity.
Qed.

Lemma print_feed_emit (neo : feed) w :
  for_each neo (fun '(date, asteroids) =>
    print ("---------- Asteroids approach date: " ++ date ++ " ----------") ;;
    print_asteroids asteroids ;;
    print EmptyString) w
  = (Ok tt, emit w (flat_map date_lines neo)).
Proof.
  apply for_each_emit. intros [date asteroids] w'.
  run_print. rewrite bind_run, print_asteroids_emit. cbv beta iota.
  rewrite print_emit, !emit_emit. reflexivity.
Qed.

(** ** The lister and the fetch step: claims C7 and C6 *)

(** C7.  On a 200 response, [display_asteroid_information] sends one
    request and prints, for each date of the feed in order, the header
    with the date and, for each asteroid of that date, a separator, its
    name, its id and one line for each of its close approaches, then an
    empty line.  On the single-asteroid feed of the end-to-end scenario
    the lines are the header with 2019-10-31, the separator, "Name: A",
    "ID: 1", "Close approach date (full): 2019-Oct-31 00:00" and the empty
    line. *)
Theorem lister_prints_every_entry :
  (forall web start_date end_date w neo,
      let q := {| start_date_param := start_date; end_date_param := end_date |} in
      status_code (web (sent w) q) = 200 ->
      near_earth_objects (web (sent w) q) = Some neo ->
      display_asteroid_information web start_date end_date w
      = (Ok tt, emit (send w q) (flat_map date_lines neo)))
  /\ stdout (snd (display_asteroid_information (always (ok_response scenario_feed))
                    "2019-10-31" "2019-11-02" fresh))
     = ["---------- Asteroids approach date: 2019-10-31 ----------";
        " ---------- "; "Name: A"; "ID: 1";
        "Close approach date (full): 2019-Oct-31 00:00"; EmptyString]%string.
Proof.
  split; [|reflexivity].
  intros web start_date end_date w neo q Hstatus Hbody.
  unfold display_asteroid_information. fold q.
  rewrite bind_run, requests_get_send. cbv beta iota.
  rewrite Hstatus, Z.eqb_refl.
  rewrite bind_run, (lift_run (get_near_earth_objects _)).
  unfold get_near_earth_objects. rewrite Hbody. cbv beta iota.
  apply print_feed_emit.
Qed.

Lemma lister_prints_every_entry_witness :
  display_asteroid_information (always (ok_response scenario_feed))
    "2019-10-31" "2019-11-02" fresh
  = (Ok tt, emit (send fresh {| start_date_param := "2019-10-31";
                                end_date_param := "2019-11-02" |})
                 (flat_map date_lines scenario_feed)).
Proof.
  apply (proj1 lister_prints_every_entry); reflexivity.
Defined.

(** C6.  When the response has a status other than 200,
    [display_asteroid_information] and [display_asteroid_properties] raise
    the exception whose message carries the status code and the reason
    phrase, having sent that one request and printed nothing.  On a 404
    the message is "Error 404: Not Found". *)
Theorem fetch_fails_on_other_status :
  (forall web float_of_string py_sum format_2f start_date end_date w,
      let q := {| start_date_param := start_date; end_date_param := end_date |} in
      status_code (web (sent w) q) <> 200 ->
      display_asteroid_information web start_date end_date w
      = (Raise (status_error (web (sent w) q)), send w q)
      /\ display_asteroid_properties web float_of_string py_sum format_2f
           start_date end_date w
         = (Raise (status_error (web (sent w) q)), send w q))
  /\ display_asteroid_information (always not_found) "2019-10-31" "2019-11-02" fresh
     = (Raise (Exception "Error 404: Not Found"),
        {| sent := [{| start_date_param := "2019-10-31";
                       end_date_param := "2019-11-02" |}];
           stdout := [] |})
  /\ display_asteroid_properties (always not_found) float_of_digits sum_left no_format
       "2020-09-10" "2020-09-10" fresh
     = (Raise (Exception "Error 404: Not Found"),
        {| sent := [{| start_date_param := "2020-09-10";
                       end_date_param := "2020-09-10" |}];
           stdout := [] |}).
Proof.
  split; [|split; reflexivity].
  intros web float_of_string py_sum format_2f start_date end_date w q Hstatus.
  apply Z.eqb_neq in Hstatus.
  unfold display_asteroid_information, display_asteroid_properties. fold q.
  rewrite !bind_run, !requests_get_send. cbv beta iota.
  rewrite Hstatus. split; reflexivity.
Qed.

Lemma fetch_fails_on_other_status_witness :
  display_asteroid_information (always too_many_requests) "2019-10-31" "2019-11-02" fresh
  = (Raise (status_error too_many_requests),
     send fresh {| start_date_param := "2019-10-31"; end_date_param := "2019-11-02" |})
  /\ display_asteroid_properties (always too_many_requests) float_of_digits sum_left
       no_format "2019-10-31" "2019-11-02" fresh
     = (Raise (status_error too_many_requests),
        send fresh {| start_date_param := "2019-10-31"; end_date_param := "2019-11-02" |}).
Proof.
  apply (proj1 fetch_fails_on_other_status (always too_many_requests)).
  simpl. discriminate.
Defined.

(** ** The analyzer on an empty dataset: claim C2 *)

Lemma extract_velocities_none float_of_string (neo : feed) :
  no_asteroid neo -> extract_velocities float_of_string neo = Ok [].
Proof.
  intros Hnone. unfold extract_velocities. generalize (@nil float).
  induction Hnone as [|[date asteroids] neo Hnone _ IH]; intros velocities; simpl.
  - reflexivity.
  - simpl in Hnone. subst asteroids. simpl. apply IH.
Qed.

(** C2 does not hold of the code.  [display_asteroid_properties] has no
    guard for an empty dataset: when the 200 response lists no asteroid,
    line 80 calls [max] on the empty list, and the built-in [ValueError]
    of [max] ends the call.  It is raised before the mean is computed, so
    the failure is not a [ZeroDivisionError], and nothing is printed; but
    it is no error of its own for the empty dataset either: a velocity
    that does not parse ends the call with the same [ValueError]. *)
Theorem analyzer_on_empty_dataset
        web float_of_string py_sum format_2f start_date end_date w neo :
  let q := {| start_date_param := start_date; end_date_param := end_date |} in
  status_code (web (sent w) q) = 200 ->
  near_earth_objects (web (sent w) q) = Some neo ->
  no_asteroid neo ->
  display_asteroid_properties web float_of_string py_sum format_2f start_date end_date w
  = (Raise ValueError, send w q)
  /\ fst (display_asteroid_properties web float_of_string py_sum format_2f
            start_date end_date w) <> Raise ZeroDivisionError
  /\ fst (display_asteroid_properties (always (ok_response unparsable_feed))
            float_of_digits sum_left no_format "2020-09-10" "2020-09-10" fresh)
     = Raise ValueError.
Proof.
  intros q Hstatus Hbody Hnone.
  assert (E : display_asteroid_properties web float_of_string py_sum format_2f
                start_date end_date w = (Raise ValueError, send w q)).
  { unfold display_asteroid_properties. fold q.
    rewrite bind_run, requests_get_send. cbv beta iota.
    rewrite Hstatus, Z.eqb_refl.
    rewrite bind_run, (lift_run (get_near_earth_objects _)).
    unfold get_near_earth_objects. rewrite Hbody. cbv beta iota.
    rewrite bind_run, lift_run, (extract_velocities_none _ _ Hnone).
    reflexivity. }
  rewrite E. split; [reflexivity | split; [discriminate | reflexivity]].
Qed.

Lemma analyzer_on_empty_dataset_witness :
  display_asteroid_properties (always (ok_response empty_days)) float_of_digits
    sum_left no_format "2020-09-10" "2020-09-11" fresh
  = (Raise ValueError,
     send fresh {| start_date_param := "2020-09-10"; end_date_param := "2020-09-11" |})
  /\ fst (display_asteroid_properties (always (ok_response empty_days)) float_of_digits
            sum_left no_format "2020-09-10" "2020-09-11" fresh)
     <> Raise ZeroDivisionError
  /\ fst (display_asteroid_properties (always (ok_response unparsable_feed))
            float_of_digits sum_left no_format "2020-09-10" "2020-09-10" fresh)
     = Raise ValueError.
Proof.
  apply (analyzer_on_empty_dataset (always (ok_response empty_days)))
    with (neo := empty_days);
    [reflexivity | reflexivity | repeat constructor].
Defined.

(** ** The hazard scanner *)

Lemma append_hazardous_entries date asteroids found :
  append_hazardous date asteroids found = found ++ hazardous_entries date asteroids.
Proof.
  unfold append_hazardous, hazardous_entries. revert found.
  induction asteroids as [|a asteroids IH]; intros found; simpl.
  - now rewrite app_nil_r.
  - rewrite IH. destruct (is_potentially_hazardous_asteroid a); simpl.
    + now rewrite <- app_assoc.
    + reflexivity.
Qed.

Lemma hazardous_entries_none date asteroids :
  Forall (fun a => is_potentially_hazardous_asteroid a = false) asteroids ->
  hazardous_entries date asteroids = [].
Proof.
  unfold hazardous_entries. induction 1 as [|a asteroids Ha _ IH]; simpl.
  - reflexivity.
  - now rewrite Ha.
Qed.

Lemma scan_response_quiet neo found : no_hazard neo -> scan_response neo found = found.
Proof.
  induction 1 as [|[date asteroids] neo Hq _ IH]; simpl; [reflexivity|].
  rewrite append_hazardous_entries, (hazardous_entries_none _ _ Hq), app_nil_r.
  rewrite IH. now destruct found as [|? [|? [|? ?]]].
Qed.

Lemma print_report_emit strftime today found w :
  print_report strftime today found w
  = (Ok tt, emit w (("The three most recent hazardous asteroids As of today "
                       ++ strftime today ++ " are:")%string
                    :: map report_line found)).
Proof.
  unfold print_report. run_print.
  rewrite (for_each_emit _ _ (fun entry => [report_line entry])).
  - now rewrite emit_emit, flat_map_singleton.
  - intros [date name] w'. reflexivity.
Qed.

(** One turn of the [while] loop. *)
Lemma scan_loop_turn web strftime fuel end_date start_date found w :
  scan_loop web strftime fuel end_date start_date found w =
  if (List.length found <? 3)%nat then
    match sub_days end_date 30 with
    | Raise e => (Raise e, w)
    | Ok limit =>
        if start_date >? limit then
          match fuel with
          | O => (Ok None, w)
          | S fuel' =>
              let q := {| start_date_param := strftime start_date;
                          end_date_param := strftime end_date |} in
              match near_earth_objects (web (sent w) q) with
              | None => (Raise (KeyError "near_earth_objects"), send w q)
              | Some neo =>
                  match sub_days end_date 1 with
                  | Raise e => (Raise e, send w q)
                  | Ok end_date' =>
                      match sub_days start_date 1 with
                      | Raise e => (Raise e, send w q)
                      | Ok start_date' =>
                          scan_loop web strftime fuel' end_date' start_date'
                                    (scan_response neo found) (send w q)
                      end
                  end
              end
          end
        else (Ok (Some found), w)
    end
  else (Ok (Some found), w).
Proof.
  destruct fuel; simpl; destruct (List.length found <? 3)%nat; try reflexivity;
    destruct (sub_days end_date 30) as [limit|]; try reflexivity;
    destruct (start_date >? limit); try reflexivity.
  unfold get_near_earth_objects.
  destruct (near_earth_objects _); [|reflexivity].
  destruct (sub_days end_date 1); [|reflexivity].
  destruct (sub_days start_date 1); reflexivity.
Qed.

Lemma sub_days_ok d k x : sub_days d k = Ok x -> x = d - k /\ 1 <= d - k.
Proof.
  unfold sub_days. destruct (Z.leb_spec 1 (d - k)); [|discriminate].
  intros [= <-]. auto.
Qed.

Lemma sub_days_raise d k e : sub_days d k = Raise e -> e = OverflowError /\ d - k < 1.
Proof.
  unfold sub_days. destruct (Z.leb_spec 1 (d - k)); [discriminate|].
  intros [= <-]. auto.
Qed.

Lemma windows_step strftime e n :
  window strftime e :: windows strftime (e - 1) n = windows strftime e (S n).
Proof.
  unfold windows. simpl. rewrite Z.sub_0_r. f_equal.
  rewrite <- seq_shift, map_map. apply map_ext. intros k. f_equal. lia.
Qed.

Lemma send_windows w strftime e n :
  sent (send w (window strftime e)) ++ windows strftime (e - 1) n
  = sent w ++ windows strftime e (S n).
Proof. simpl. now rewrite <- app_assoc, <- windows_step. Qed.

(** The requests of the loop, whatever the service answers. *)
Lemma scan_loop_windows web strftime fuel : forall e found w,
  exists n, sent (snd (scan_loop web strftime fuel e (e - 1) found w))
            = sent w ++ windows strftime e n.
Proof.
  assert (Hone : forall (w : world) e,
             sent (send w (window strftime e)) = sent w ++ windows strftime e 1).
  { intros. unfold windows. simpl. now rewrite Z.sub_0_r. }
  induction fuel as [|fuel IH]; intros e found w; rewrite scan_loop_turn;
    (destruct (List.length found <? 3)%nat; [|exists O; simpl; now rewrite app_nil_r]);
    (destruct (sub_days e 30) as [limit|]; [|exists O; simpl; now rewrite app_nil_r]);
    (destruct (e - 1 >? limit); [|exists O; simpl; now rewrite app_nil_r]).
  - exists O. simpl. now rewrite app_nil_r.
  - cbv zeta. fold (window strftime e).
    destruct (near_earth_objects _) as [neo|]; [|exists 1%nat; apply Hone].
    destruct (sub_days e 1) as [e'|] eqn:Ee; [|exists 1%nat; apply Hone].
    destruct (sub_days (e - 1) 1) as [s'|] eqn:Es; [|exists 1%nat; apply Hone].
    apply sub_days_ok in Ee, Es. destruct Ee as [-> _], Es as [-> _].
    destruct (IH (e - 1) (scan_response neo found) (send w (window strftime e)))
      as [n Hn].
    exists (S n). rewrite Hn. apply send_windows.
Qed.

(** The fuel given to the loop is never used up. *)
Lemma scan_loop_fuel web strftime fuel : forall e s found w,
  e <= Z.of_nat fuel + 30 ->
  fst (scan_loop web strftime fuel e s found w) <> Ok None.
Proof.
  induction fuel as [|fuel IH]; intros e s found w He; rewrite scan_loop_turn;
    (destruct (List.length found <? 3)%nat; [|discriminate]);
    (destruct (sub_days e 30) as [limit|] eqn:El; [|discriminate]);
    (destruct (s >? limit); [|discriminate]).
  - apply sub_days_ok in El. lia.
  - cbv zeta. destruct (near_earth_objects _) as [neo|]; [|discriminate].
    destruct (sub_days e 1) as [e'|] eqn:Ee; [|discriminate].
    destruct (sub_days s 1) as [s'|]; [|discriminate].
    apply sub_days_ok in Ee. destruct Ee as [-> _]. apply IH. lia.
Qed.

(** The loop raises no [Exception(...)]: it never looks at the status. *)
Lemma scan_loop_no_status_error web strftime fuel msg : forall e s found w,
  fst (scan_loop web strftime fuel e s found w) <> Raise (Exception msg).
Proof.
  induction fuel as [|fuel IH]; intros e s found w; rewrite scan_loop_turn;
    (destruct (List.length found <? 3)%nat; [|discriminate]);
    (destruct (sub_days e 30) as [limit|] eqn:El;
       [|apply sub_days_raise in El; destruct El as [-> _]; discriminate]);
    (destruct (s >? limit); [|discriminate]).
  - discriminate.
  - cbv zeta. destruct (near_earth_objects _) as [neo|]; [|discriminate].
    destruct (sub_days e 1) as [e'|] eqn:Ee;
      [|apply sub_days_raise in Ee; destruct Ee as [-> _]; discriminate].
    destruct (sub_days s 1) as [s'|] eqn:Es;
      [|apply sub_days_raise in Es; destruct Es as [-> _]; discriminate].
    apply IH.
Qed.

Lemma scanner_run web strftime today w :
  display_recent_hazardous_asteroids web strftime today w =
  match sub_days today 1 with
  | Raise e => (Raise e, w)
  | Ok start_date =>
      match scan_loop web strftime (Z.to_nat today) today start_date [] w with
      | (Ok None, w') => (Ok None, w')
      | (Ok (Some found), w') =>
          (Ok (Some tt),
           emit w' (("The three most recent hazardous asteroids As of today "
                       ++ strftime today ++ " are:")%string
                    :: map report_line found))
      | (Raise e, w') => (Raise e, w')
      end
  end.
Proof.
  unfold display_recent_hazardous_asteroids.
  rewrite bind_run, lift_run.
  destruct (sub_days today 1) as [start_date|]; [|reflexivity].
  rewrite bind_run.
  destruct (scan_loop web strftime (Z.to_nat today) today start_date [] w)
    as [[[found|]|e] w']; try reflexivity.
  rewrite bind_run, print_report_emit. reflexivity.
Qed.

(** ** The hazard scanner: claims C10, C5, C1 and C3 *)

(** C10.  Whatever the service answers, the requests that
    [display_recent_hazardous_asteroids] sends are, in order, the windows
    from [today - k - 1] to [today - k] for k = 0, 1, 2, ...: each covers
    two calendar days and each is the previous one moved one day back.
    The call always ends, with the report printed or with an exception. *)
Theorem scanner_window_is_two_days web strftime today w :
  (exists n,
      sent (snd (display_recent_hazardous_asteroids web strftime today w))
      = sent w
        ++ map (fun k => {| start_date_param := strftime (today - Z.of_nat k - 1);
                            end_date_param := strftime (today - Z.of_nat k) |})
               (seq 0 n))
  /\ fst (display_recent_hazardous_asteroids web strftime today w) <> Ok None.
Proof.
  rewrite scanner_run.
  destruct (sub_days today 1) as [start_date|] eqn:Es.
  - apply sub_days_ok in Es. destruct Es as [-> _]. split.
    + destruct (scan_loop_windows web strftime (Z.to_nat today) today [] w) as [n Hn].
      exists n. transitivity (sent w ++ windows strftime today n); [|reflexivity].
      rewrite <- Hn.
      now destruct (scan_loop _ _ _ _ _ _ _) as [[[found|]|e] w'].
    + pose proof (scan_loop_fuel web strftime (Z.to_nat today) today (today - 1) [] w
                    ltac:(lia)) as Hfuel.
      destruct (scan_loop _ _ _ _ _ _ _) as [[[found|]|e] w']; simpl in *;
        congruence.
  - split; [|discriminate]. exists O. simpl. now rewrite app_nil_r.
Qed.

(** C5.  After the hazardous asteroids of a date have been appended, three
    or more collected entries end the loop over the dates of that
    response, the later dates unread; and the report prints the header
    and then every collected entry, in the order collected, not only
    three.  On a response whose first date holds four hazardous
    asteroids, four lines are printed and the second date is not read. *)
Theorem scanner_reports_all_found :
  (forall date asteroids rest found,
      let found' := found ++ hazardous_entries date asteroids in
      scan_response ((date, asteroids) :: rest) found
      = if (3 <=? List.length found')%nat then found' else scan_response rest found')
  /\ (forall web strftime today w found w',
         (start_date <- lift (sub_days today 1) ;;
          scan_loop web strftime (Z.to_nat today) today start_date []) w
         = (Ok (Some found), w') ->
         display_recent_hazardous_asteroids web strftime today w
         = (Ok (Some tt),
            emit w' (("The three most recent hazardous asteroids As of today "
                        ++ strftime today ++ " are:")%string
                     :: map (fun entry => (fst entry ++ ": " ++ snd entry)%string) found)))
  /\ display_recent_hazardous_asteroids (always (ok_response busy_feed)) iso_date
       may_day fresh
     = (Ok (Some tt),
        {| sent := [{| start_date_param := "2024-04-30";
                       end_date_param := "2024-05-01" |}];
           stdout := ["The three most recent hazardous asteroids As of today 2024-05-01 are:";
                      "2024-04-30: P"; "2024-04-30: Q"; "2024-04-30: S";
                      "2024-04-30: T"]%string |}).
Proof.
  split; [|split].
  - intros date asteroids rest found found'. simpl.
    rewrite append_hazardous_entries. reflexivity.
  - intros web strftime today w found w' Hscan.
    rewrite scanner_run. rewrite bind_run, lift_run in Hscan.
    destruct (sub_days today 1) as [start_date|]; [|discriminate].
    rewrite Hscan. reflexivity.
  - vm_compute. reflexivity.
Qed.

Lemma scanner_reports_all_found_witness :
  display_recent_hazardous_asteroids (always unavailable_with_feed) iso_date may_day fresh
  = (Ok (Some tt),
     emit (send fresh (window iso_date may_day))
          (("The three most recent hazardous asteroids As of today "
              ++ iso_date may_day ++ " are:")%string
           :: map (fun entry => (fst entry ++ ": " ++ snd entry)%string)
                  (hazardous_entries "2024-04-30"
                     [rock "P" true; rock "Q" true; rock "R" false;
                      rock "S" true; rock "T" true]))).
Proof.
  apply (proj1 (proj2 scanner_reports_all_found)). vm_compute. reflexivity.
Defined.

Lemma scan_loop_never_hazardous web strftime :
  never_hazardous web ->
  forall fuel e w, (Z.to_nat (e - 30) <= fuel)%nat ->
  scan_loop web strftime fuel e (e - 1) [] w
  = (Raise OverflowError,
     {| sent := sent w ++ windows strftime e (Z.to_nat (e - 30)); stdout := stdout w |}).
Proof.
  intros Hweb. induction fuel as [|fuel IH]; intros e w Hfuel;
    rewrite scan_loop_turn; simpl (List.length [] <? 3)%nat; cbv iota;
    unfold sub_days at 1; destruct (Z.leb_spec 1 (e - 30)) as [Hge|Hlt].
  - lia.
  - replace (Z.to_nat (e - 30)) with O by lia. destruct w. simpl.
    now rewrite app_nil_r.
  - replace (e - 1 >? e - 30) with true by (symmetry; apply Z.gtb_lt; lia).
    cbv zeta. fold (window strftime e).
    destruct (Hweb (sent w) (window strftime e)) as (neo & -> & Hquiet).
    rewrite (scan_response_quiet _ _ Hquiet).
    unfold sub_days.
    replace (1 <=? e - 1) with true by (symmetry; apply Z.leb_le; lia).
    replace (1 <=? e - 1 - 1) with true by (symmetry; apply Z.leb_le; lia).
    rewrite IH by lia.
    replace (Z.to_nat (e - 30)) with (S (Z.to_nat (e - 1 - 30))) by lia.
    now rewrite send_windows.
  - replace (Z.to_nat (e - 30)) with O by lia. destruct w. simpl.
    now rewrite app_nil_r.
Qed.

(** C1 does not hold of the code.  The guard of the loop compares
    [start_date] with the current [end_date] minus 30 days, and
    [start_date] is always one day before [end_date]: while fewer than
    three hazardous asteroids are known the guard holds.  When no response
    flags an asteroid, the loop sends the window of every day from [today]
    back to ordinal 31 and ends when [end_date - 30 days] falls before
    0001-01-01, with [OverflowError]; from [today >= 62] on, the window
    that starts 32 days before [today] is among the requests. *)
Theorem scanner_not_bounded_by_30_days web strftime today w :
  never_hazardous web ->
  display_recent_hazardous_asteroids web strftime today w
  = (Raise OverflowError,
     {| sent := sent w
                ++ map (fun k => {| start_date_param := strftime (today - Z.of_nat k - 1);
                                    end_date_param := strftime (today - Z.of_nat k) |})
                       (seq 0 (Z.to_nat (today - 30)));
        stdout := stdout w |})
  /\ (62 <= today ->
      In {| start_date_param := strftime (today - 32);
            end_date_param := strftime (today - 31) |}
         (sent (snd (display_recent_hazardous_asteroids web strftime today w)))).
Proof.
  intros Hweb.
  assert (E : display_recent_hazardous_asteroids web strftime today w
              = (Raise OverflowError,
                 {| sent := sent w ++ windows strftime today (Z.to_nat (today - 30));
                    stdout := stdout w |})).
  { rewrite scanner_run. unfold sub_days at 1.
    destruct (Z.leb_spec 1 (today - 1)) as [Hge|Hlt].
    - rewrite (scan_loop_never_hazardous web strftime Hweb) by lia. reflexivity.
    - replace (Z.to_nat (today - 30)) with O by lia. destruct w. simpl.
      now rewrite app_nil_r. }
  split; [exact E|].
  intros Htoday. rewrite E. simpl. apply in_or_app. right.
  unfold windows. apply in_map_iff. exists 31%nat. split.
  - unfold window. f_equal; f_equal; lia.
  - apply in_seq. lia.
Qed.

Lemma scanner_not_bounded_by_30_days_witness :
  display_recent_hazardous_asteroids (always (ok_response empty_days)) iso_date may_day fresh
  = (Raise OverflowError,
     {| sent := sent fresh
                ++ map (fun k => {| start_date_param := iso_date (may_day - Z.of_nat k - 1);
                                    end_date_param := iso_date (may_day - Z.of_nat k) |})
                       (seq 0 (Z.to_nat (may_day - 30)));
        stdout := stdout fresh |})
  /\ (62 <= may_day ->
      In {| start_date_param := iso_date (may_day - 32);
            end_date_param := iso_date (may_day - 31) |}
         (sent (snd (display_recent_hazardous_asteroids
                       (always (ok_response empty_days)) iso_date may_day fresh)))).
Proof.
  apply (scanner_not_bounded_by_30_days (always (ok_response empty_days))).
  intros history q. exists empty_days. split; [reflexivity | repeat constructor].
Defined.

(** C3 does not hold of the scanner.  [display_recent_hazardous_asteroids]
    never reads the status: it raises no [Exception(...)] whatever the
    service answers.  On a 429 whose body is an error object it raises
    [KeyError]; on a 503 that carries a feed it prints the report. *)
Theorem scanner_ignores_status :
  (forall web strftime today w msg,
      fst (display_recent_hazardous_asteroids web strftime today w)
      <> Raise (Exception msg))
  /\ display_recent_hazardous_asteroids (always too_many_requests) iso_date may_day fresh
     = (Raise (KeyError "near_earth_objects"),
        {| sent := [{| start_date_param := "2024-04-30";
                       end_date_param := "2024-05-01" |}];
           stdout := [] |})
  /\ display_recent_hazardous_asteroids (always unavailable_with_feed) iso_date
       may_day fresh
     = (Ok (Some tt),
        {| sent := [{| start_date_param := "2024-04-30";
                       end_date_param := "2024-05-01" |}];
           stdout := ["The three most recent hazardous asteroids As of today 2024-05-01 are:";
                      "2024-04-30: P"; "2024-04-30: Q"; "2024-04-30: S";
                      "2024-04-30: T"]%string |}).
Proof.
  split; [|split; vm_compute; reflexivity].
  intros web strftime today w msg. rewrite scanner_run.
  destruct (sub_days today 1) as [start_date|] eqn:Es.
  - pose proof (scan_loop_no_status_error web strftime (Z.to_nat today) msg
                  today start_date [] w) as Hloop.
    destruct (scan_loop _ _ _ _ _ _ _) as [[[found|]|e] w']; simpl in *;
      congruence.
  - apply sub_days_raise in Es. destruct Es as [-> _]. discriminate.
Qed.


(** * Further properties of the script *)

(** ** One run of the lister and of the analyzer, case by case *)

Lemma lister_run web start_date end_date w :
  let q := {| start_date_param := start_date; end_date_param := end_date |} in
  display_asteroid_information web start_date end_date w =
  if status_code (web (sent w) q) =? 200 then
    match near_earth_objects (web (sent w) q) with
    | Some neo => (Ok tt, emit (send w q) (flat_map date_lines neo))
    | None => (Raise (KeyError "near_earth_objects"), send w q)
    end
  else (Raise (status_error (web (sent w) q)), send w q).
Proof.
  intros q. unfold display_asteroid_information. fold q.
  rewrite bind_run, requests_get_send. cbv beta iota.
  destruct (status_code (web (sent w) q) =? 200); [|reflexivity].
  rewrite bind_run, (lift_run (get_near_earth_objects _)).
  unfold get_near_earth_objects.
  destruct (near_earth_objects (web (sent w) q)) as [neo|]; [|reflexivity].
  cbv beta iota. apply print_feed_emit.
Qed.

Lemma analyzer_run web float_of_string py_sum format_2f start_date end_date w :
  let q := {| start_date_param := start_date; end_date_param := end_date |} in
  display_asteroid_properties web float_of_string py_sum format_2f start_date end_date w =
  if status_code (web (sent w) q) =? 200 then
    match near_earth_objects (web (sent w) q) with
    | None => (Raise (KeyError "near_earth_objects"), send w q)
    | Some neo =>
        match extract_velocities float_of_string neo with
        | Raise e => (Raise e, send w q)
        | Ok velocities =>
            match fastest_velocity velocities, slowest_velocity velocities,
                  mean_velocity py_sum velocities, median_velocity velocities with
            | Ok fastest, Ok slowest, Ok mean, Ok median =>
                (Ok tt, emit (send w q)
                             (statistics_lines format_2f fastest slowest mean median))
            | Raise e, _, _, _ => (Raise e, send w q)
            | Ok _, Raise e, _, _ => (Raise e, send w q)
            | Ok _, Ok _, Raise e, _ => (Raise e, send w q)
            | Ok _, Ok _, Ok _, Raise e => (Raise e, send w q)
            end
        end
    end
  else (Raise (status_error (web (sent w) q)), send w q).
Proof.
  intros q. unfold display_asteroid_properties. fold q.
  rewrite bind_run, requests_get_send. cbv beta iota.
  destruct (status_code (web (sent w) q) =? 200); [|reflexivity].
  rewrite bind_run, (lift_run (get_near_earth_objects _)).
  unfold get_near_earth_objects.
  destruct (near_earth_objects (web (sent w) q)) as [neo|]; [|reflexivity].
  cbv beta iota. rewrite bind_run, lift_run.
  destruct (extract_velocities float_of_string neo) as [velocities|]; [|reflexivity].
  cbv beta iota. rewrite bind_run, lift_run.
  destruct (fastest_velocity velocities); [|reflexivity].
  cbv beta iota. rewrite bind_run, lift_run.
  destruct (slowest_velocity velocities); [|reflexivity].
  cbv beta iota. rewrite bind_run, lift_run.
  destruct (mean_velocity py_sum velocities); [|reflexivity].
  cbv beta iota. rewrite bind_run, lift_run.
  destruct (median_velocity velocities); [|reflexivity].
  cbv beta iota. repeat run_print. rewrite print_emit, !emit_emit. reflexivity.
Qed.

(** The aggregates of a non-empty list all exist. *)
Lemma aggregates_exist py_sum velocities :
  velocities <> [] ->
  exists fastest slowest mean,
    fastest_velocity velocities = Ok fastest
    /\ slowest_velocity velocities = Ok slowest
    /\ mean_velocity py_sum velocities = Ok mean
    /\ median_velocity velocities = Ok (middle velocities).
Proof.
  intros Hne. destruct velocities as [|x rest]; [congruence|].
  do 3 eexists. repeat split; try reflexivity.
  now apply median_velocity_middle.
Qed.

(** ** The loop that collects the velocities *)

Lemma fold_outcome_app {A S : Type} (body : S -> A -> outcome S) (l1 l2 : list A) :
  forall s, fold_outcome body (l1 ++ l2) s
            = match fold_outcome body l1 s with
              | Ok s' => fold_outcome body l2 s'
              | Raise e => Raise e
              end.
Proof.
  induction l1 as [|x l1 IH]; intros s; simpl; [reflexivity|].
  destruct (body s x); [apply IH | reflexivity].
Qed.

Lemma extract_velocities_flat float_of_string (neo : feed) :
  extract_velocities float_of_string neo
  = fold_outcome (append_velocity float_of_string) (asteroids_of neo) [].
Proof.
  unfold extract_velocities, asteroids_of. generalize (@nil float).
  induction neo as [|[date asteroids] neo IH]; intros velocities; simpl; [reflexivity|].
  rewrite fold_outcome_app.
  destruct (fold_outcome (append_velocity float_of_string) asteroids velocities);
    [apply IH | reflexivity].
Qed.

Lemma append_velocity_ok float_of_string velocities a velocities' :
  append_velocity float_of_string velocities a = Ok velocities' <->
  exists v, first_velocity_is float_of_string a v /\ velocities' = velocities ++ [v].
Proof.
  unfold append_velocity, first_velocity_is, getitem. simpl.
  destruct (close_approach_data a) as [|c rest]; simpl.
  - split; [discriminate | intros (v & (c & rest & E & _) & _); discriminate].
  - destruct (float_of_string (kilometers_per_second c)) as [v|] eqn:Ev; split.
    + intros [= <-]. exists v. split; [|reflexivity]. exists c, rest. auto.
    + intros (v' & (c' & rest' & [= <- <-] & Ev') & ->). congruence.
    + discriminate.
    + intros (v' & (c' & rest' & [= <- <-] & Ev') & _). congruence.
Qed.

Lemma collect_velocities_ok float_of_string asteroids : forall velocities velocities',
  fold_outcome (append_velocity float_of_string) asteroids velocities = Ok velocities' <->
  exists vs, Forall2 (first_velocity_is float_of_string) asteroids vs
             /\ velocities' = velocities ++ vs.
Proof.
  induction asteroids as [|a asteroids IH]; intros velocities velocities'; simpl.
  - split.
    + intros [= <-]. exists []. split; [constructor | now rewrite app_nil_r].
    + intros (vs & H & ->). inversion H. now rewrite app_nil_r.
  - destruct (append_velocity float_of_string velocities a) as [mid|e] eqn:E; split.
    + intros H. apply IH in H. destruct H as (vs & Hvs & ->).
      apply append_velocity_ok in E. destruct E as (v & Hv & ->).
      exists (v :: vs). split; [now constructor | now rewrite <- app_assoc].
    + intros (vs & H & ->). inversion H as [|? v ? vs' Hv Hvs]; subst.
      apply IH. exists vs'. split; [exact Hvs|].
      apply append_velocity_ok in E. destruct E as (v' & (c & r & Ec & Ef) & ->).
      destruct Hv as (c' & r' & Ec' & Ef'). rewrite Ec in Ec'.
      injection Ec' as <- <-. rewrite Ef in Ef'. injection Ef' as <-.
      now rewrite <- app_assoc.
    + discriminate.
    + intros (vs & H & ->). inversion H as [|? v ? vs' Hv Hvs]; subst.
      assert (Hok : append_velocity float_of_string velocities a = Ok (velocities ++ [v])).
      { apply append_velocity_ok. eauto. }
      congruence.
Qed.

Lemma append_velocity_raise float_of_string velocities a e :
  append_velocity float_of_string velocities a = Raise e ->
  (close_approach_data a = [] /\ e = IndexError)
  \/ (exists c rest, close_approach_data a = c :: rest
                     /\ float_of_string (kilometers_per_second c) = None
                     /\ e = ValueError).
Proof.
  unfold append_velocity, getitem. simpl.
  destruct (close_approach_data a) as [|c rest]; simpl.
  - intros [= <-]. now left.
  - destruct (float_of_string (kilometers_per_second c)) eqn:Ev; [discriminate|].
    intros [= <-]. right. exists c, rest. auto.
Qed.

Lemma collect_velocities_raise float_of_string asteroids : forall velocities e,
  fold_outcome (append_velocity float_of_string) asteroids velocities = Raise e ->
  e = IndexError \/ e = ValueError.
Proof.
  induction asteroids as [|a asteroids IH]; intros velocities e; simpl; [discriminate|].
  destruct (append_velocity float_of_string velocities a) as [mid|e'] eqn:E.
  - apply IH.
  - intros [= <-]. apply append_velocity_raise in E.
    destruct E as [[_ ->]|(c & rest & _ & _ & ->)]; auto.
Qed.

(** ** The lister and the analyzer: further properties *)

(** X1.  A 200 response whose body lacks [near_earth_objects] makes both
    [display_asteroid_information] and [display_asteroid_properties] raise
    [KeyError], the one request sent and nothing printed. *)
Theorem missing_feed_key
        web float_of_string py_sum format_2f start_date end_date w :
  let q := {| start_date_param := start_date; end_date_param := end_date |} in
  status_code (web (sent w) q) = 200 ->
  near_earth_objects (web (sent w) q) = None ->
  display_asteroid_information web start_date end_date w
  = (Raise (KeyError "near_earth_objects"), send w q)
  /\ display_asteroid_properties web float_of_string py_sum format_2f
       start_date end_date w
     = (Raise (KeyError "near_earth_objects"), send w q).
Proof.
  intros q Hstatus Hbody. split.
  - pose proof (lister_run web start_date end_date w) as E. cbv zeta in E. fold q in E.
    rewrite E, Hstatus, Hbody. reflexivity.
  - pose proof (analyzer_run web float_of_string py_sum format_2f start_date end_date w)
      as E. cbv zeta in E. fold q in E.
    rewrite E, Hstatus, Hbody. reflexivity.
Qed.

Lemma missing_feed_key_witness :
  display_asteroid_information (always ok_without_feed) "2019-10-31" "2019-11-02" fresh
  = (Raise (KeyError "near_earth_objects"),
     send fresh {| start_date_param := "2019-10-31"; end_date_param := "2019-11-02" |})
  /\ display_asteroid_properties (always ok_without_feed) float_of_digits sum_left
       no_format "2019-10-31" "2019-11-02" fresh
     = (Raise (KeyError "near_earth_objects"),
        send fresh {| start_date_param := "2019-10-31"; end_date_param := "2019-11-02" |}).
Proof.
  apply (missing_feed_key (always ok_without_feed)); reflexivity.
Defined.

(** X2.  The velocities [display_asteroid_properties] collects are, for
    the asteroids of the feed in date order and then list order, the
    parsed velocity of the first close approach of each; the collection
    succeeds exactly when every asteroid has a first close approach whose
    velocity parses.  Later close approaches are not read. *)
Theorem velocities_are_first_close_approaches float_of_string neo velocities :
  extract_velocities float_of_string neo = Ok velocities
  <-> Forall2 (first_velocity_is float_of_string) (asteroids_of neo) velocities.
Proof.
  rewrite extract_velocities_flat, collect_velocities_ok. split.
  - intros (vs & H & ->). exact H.
  - intros H. exists velocities. auto.
Qed.

(** X3.  When the asteroids before [a] all have a first close approach
    that parses, [display_asteroid_properties] fails on [a]: with
    [IndexError] if [a] has no close approach, with [ValueError] if the
    velocity of its first close approach does not parse.  The request has
    been sent and nothing is printed. *)
Theorem analyzer_fails_on_first_bad_record
        web float_of_string py_sum format_2f start_date end_date w
        neo good a rest velocities :
  let q := {| start_date_param := start_date; end_date_param := end_date |} in
  status_code (web (sent w) q) = 200 ->
  near_earth_objects (web (sent w) q) = Some neo ->
  asteroids_of neo = good ++ a :: rest ->
  Forall2 (first_velocity_is float_of_string) good velocities ->
  (close_approach_data a = [] ->
   display_asteroid_properties web float_of_string py_sum format_2f
     start_date end_date w = (Raise IndexError, send w q))
  /\ (forall c cs, close_approach_data a = c :: cs ->
                   float_of_string (kilometers_per_second c) = None ->
                   display_asteroid_properties web float_of_string py_sum format_2f
                     start_date end_date w = (Raise ValueError, send w q)).
Proof.
  intros q Hstatus Hbody Hsplit Hgood.
  pose proof (analyzer_run web float_of_string py_sum format_2f start_date end_date w)
    as E. cbv zeta in E. fold q in E.
  rewrite E, Hstatus, Hbody, Z.eqb_refl. clear E.
  rewrite extract_velocities_flat, Hsplit, fold_outcome_app.
  assert (Hfold : fold_outcome (append_velocity float_of_string) good []
                  = Ok velocities).
  { apply collect_velocities_ok. exists velocities. auto. }
  rewrite Hfold. simpl. unfold append_velocity, getitem. simpl. split.
  - intros ->. reflexivity.
  - intros c cs -> Hnone. simpl. rewrite Hnone. reflexivity.
Qed.

Lemma analyzer_fails_on_first_bad_record_witness :
  display_asteroid_properties (always (ok_response broken_feed)) float_of_digits
    sum_left no_format "2020-09-10" "2020-09-10" fresh
  = (Raise IndexError,
     send fresh {| start_date_param := "2020-09-10"; end_date_param := "2020-09-10" |}).
Proof.
  refine (proj1 (analyzer_fails_on_first_bad_record
                   (always (ok_response broken_feed))
                   float_of_digits sum_left no_format "2020-09-10" "2020-09-10" fresh
                   broken_feed
                   [{| name := "A"; id := "1";
                       is_potentially_hazardous_asteroid := false;
                       close_approach_data :=
                         [{| close_approach_date_full := "2020-Sep-10 00:00";
                             kilometers_per_second := "5.0" |}] |}]
                   (rock "B" false) [] [5%float] _ _ _ _) _);
    try reflexivity.
  constructor; [|constructor]. eexists _, _. split; reflexivity.
Defined.



(** X5.  [display_asteroid_properties] prints all four lines or none.
    A response of the model is a status, a reason and a body that either
    lacks the feed or is a feed whose records carry the fields the script
    reads; for each of them the call sends exactly one request, and
    either returns having printed exactly four lines, or raises having
    printed nothing.  The exception is never [ZeroDivisionError]: the
    division of line 84 is reached only with a non-empty list.  Which
    other exceptions can be raised is not stated. *)
Theorem analyzer_all_or_nothing
        web float_of_string py_sum format_2f start_date end_date w :
  let q := {| start_date_param := start_date; end_date_param := end_date |} in
  let run := display_asteroid_properties web float_of_string py_sum format_2f
               start_date end_date w in
  sent (snd run) = sent w ++ [q]
  /\ ((fst run = Ok tt
       /\ exists l1 l2 l3 l4, stdout (snd run) = stdout w ++ [l1; l2; l3; l4])
      \/ (exists e, fst run = Raise e
                    /\ stdout (snd run) = stdout w
                    /\ e <> ZeroDivisionError)).
Proof.
  intros q run. subst run.
  pose proof (analyzer_run web float_of_string py_sum format_2f start_date end_date w)
    as E. cbv zeta in E. fold q in E. rewrite E. clear E.
  destruct (status_code (web (sent w) q) =? 200);
    [|split; [reflexivity|right; eexists; repeat split; discriminate]].
  destruct (near_earth_objects (web (sent w) q)) as [neo|];
    [|split; [reflexivity|right; eexists; repeat split; discriminate]].
  destruct (extract_velocities float_of_string neo) as [velocities|e] eqn:Ev.
  - destruct velocities as [|x rest].
    + split; [reflexivity|]. right. exists ValueError.
      repeat split. discriminate.
    + destruct (aggregates_exist py_sum (x :: rest) ltac:(discriminate))
        as (fastest & slowest & mean & Hf & Hs & Hm & Hd).
      rewrite Hf, Hs, Hm, Hd. split; [reflexivity|]. left.
      split; [reflexivity|]. simpl. unfold statistics_lines. eauto.
  - split; [reflexivity|]. right. exists e. repeat split.
    rewrite extract_velocities_flat in Ev. apply collect_velocities_raise in Ev.
    destruct Ev as [->| ->]; discriminate.
Qed.

(** ** The scanner: further properties *)

Lemma scan_loop_done web strftime fuel e s found w :
  (3 <= List.length found)%nat ->
  scan_loop web strftime fuel e s found w = (Ok (Some found), w).
Proof.
  intros H. rewrite scan_loop_turn.
  now replace (List.length found <? 3)%nat with false
    by (symmetry; apply Nat.ltb_ge; exact H).
Qed.

(** A turn of the loop that asks and goes on. *)
Lemma scan_loop_step web strftime fuel e found w neo :
  (List.length found < 3)%nat -> 31 <= e ->
  near_earth_objects (web (sent w) (window strftime e)) = Some neo ->
  scan_loop web strftime (S fuel) e (e - 1) found w
  = scan_loop web strftime fuel (e - 1) (e - 1 - 1) (scan_response neo found)
              (send w (window strftime e)).
Proof.
  intros Hlen He Hneo. rewrite scan_loop_turn.
  replace (List.length found <? 3)%nat with true by (symmetry; now apply Nat.ltb_lt).
  unfold sub_days.
  replace (1 <=? e - 30) with true by (symmetry; apply Z.leb_le; lia).
  replace (e - 1 >? e - 30) with true by (symmetry; apply Z.gtb_lt; lia).
  cbv zeta. fold (window strftime e). rewrite Hneo.
  replace (1 <=? e - 1) with true by (symmetry; apply Z.leb_le; lia).
  replace (1 <=? e - 1 - 1) with true by (symmetry; apply Z.leb_le; lia).
  reflexivity.
Qed.

(** The loop prints nothing; it ends normally only with three or more
    entries, and raises only [KeyError] or [OverflowError]. *)
Lemma scan_loop_outcome web strftime fuel : forall e found w,
  let run := scan_loop web strftime fuel e (e - 1) found w in
  stdout (snd run) = stdout w
  /\ (forall found', fst run = Ok (Some found') -> (3 <= List.length found')%nat)
  /\ (forall x, fst run = Raise x ->
                x = KeyError "near_earth_objects" \/ x = OverflowError).
Proof.
  induction fuel as [|fuel IH]; intros e found w; cbv zeta; rewrite scan_loop_turn;
    (destruct (Nat.ltb_spec (List.length found) 3);
     [|repeat split; [intros ? [= <-]; assumption | discriminate]]);
    (destruct (sub_days e 30) as [limit|x] eqn:El;
     [|apply sub_days_raise in El; destruct El as [-> _];
       repeat split; [discriminate | intros ? [= <-]; auto]]);
    apply sub_days_ok in El; destruct El as [-> _];
    replace (e - 1 >? e - 30) with true by (symmetry; apply Z.gtb_lt; lia).
  - repeat split; discriminate.
  - cbv zeta. fold (window strftime e).
    destruct (near_earth_objects _) as [neo|];
      [|repeat split; [discriminate | intros ? [= <-]; auto]].
    destruct (sub_days e 1) as [e'|x] eqn:Ee;
      [|apply sub_days_raise in Ee; destruct Ee as [-> _];
        repeat split; [discriminate | intros ? [= <-]; auto]].
    destruct (sub_days (e - 1) 1) as [s'|x] eqn:Es;
      [|apply sub_days_raise in Es; destruct Es as [-> _];
        repeat split; [discriminate | intros ? [= <-]; auto]].
    apply sub_days_ok in Ee, Es. destruct Ee as [-> _], Es as [-> _].
    apply (IH (e - 1) (scan_response neo found) (send w (window strftime e))).
Qed.

(** X6.  When [display_recent_hazardous_asteroids] returns, its report
    lists at least three entries: the loop is left normally only once
    three hazardous asteroids are held, so a report with fewer entries is
    never printed. *)
Theorem scanner_report_has_three web strftime today w r :
  fst (display_recent_hazardous_asteroids web strftime today w) = Ok r ->
  r = Some tt
  /\ exists found,
      (3 <= List.length found)%nat
      /\ stdout (snd (display_recent_hazardous_asteroids web strftime today w))
         = stdout w
           ++ ("The three most recent hazardous asteroids As of today "
                 ++ strftime today ++ " are:")%string
              :: map (fun entry => (fst entry ++ ": " ++ snd entry)%string) found.
Proof.
  rewrite scanner_run.
  destruct (sub_days today 1) as [start_date|] eqn:Es; [|discriminate].
  apply sub_days_ok in Es. destruct Es as [-> _].
  pose proof (scan_loop_outcome web strftime (Z.to_nat today) today [] w) as H.
  pose proof (scan_loop_fuel web strftime (Z.to_nat today) today (today - 1) [] w
                ltac:(lia)) as Hfuel.
  cbv zeta in H. destruct H as (Hout & Hexit & _).
  destruct (scan_loop _ _ _ _ _ _ _) as [[[found|]|x] w']; simpl in *;
    try congruence.
  intros [= <-]. split; [reflexivity|]. exists found.
  split; [now apply Hexit|]. now rewrite Hout.
Qed.

Lemma scanner_report_has_three_witness :
  Some tt = Some tt
  /\ exists found,
      (3 <= List.length found)%nat
      /\ stdout (snd (display_recent_hazardous_asteroids
                        (always (ok_response busy_feed)) iso_date may_day fresh))
         = stdout fresh
           ++ ("The three most recent hazardous asteroids As of today "
                 ++ iso_date may_day ++ " are:")%string
              :: map (fun entry => (fst entry ++ ": " ++ snd entry)%string) found.
Proof.
  apply (scanner_report_has_three (always (ok_response busy_feed)) iso_date may_day fresh).
  vm_compute. reflexivity.
Defined.

(** X7.  When [display_recent_hazardous_asteroids] raises, whatever the
    exception and however many requests came before it, nothing has been
    printed: the report is written only after the loop (lines 146-148),
    so the entries collected until then are lost.  Which exceptions can
    be raised is not stated. *)
Theorem scanner_fails_silently web strftime today w x :
  fst (display_recent_hazardous_asteroids web strftime today w) = Raise x ->
  stdout (snd (display_recent_hazardous_asteroids web strftime today w)) = stdout w.
Proof.
  rewrite scanner_run.
  destruct (sub_days today 1) as [start_date|] eqn:Es.
  - apply sub_days_ok in Es. destruct Es as [-> _].
    pose proof (scan_loop_outcome web strftime (Z.to_nat today) today [] w) as H.
    cbv zeta in H. destruct H as (Hout & _ & _).
    destruct (scan_loop _ _ _ _ _ _ _) as [[[found|]|x'] w']; simpl in *;
      try discriminate.
    intros _. exact Hout.
  - intros _. reflexivity.
Qed.

(** Two hazardous asteroids are held when the second response comes
    without a feed: the call raises and the two are not printed. *)
Lemma scanner_fails_silently_witness :
  stdout (snd (display_recent_hazardous_asteroids
                 (fun history _ =>
                    match history with
                    | [] => ok_response [("2024-04-30"%string,
                                          [rock "P" true; rock "Q" true])]
                    | _ => too_many_requests
                    end)
                 iso_date may_day fresh))
  = stdout fresh.
Proof.
  apply (scanner_fails_silently _ iso_date may_day fresh
           (KeyError "near_earth_objects")).
  vm_compute. reflexivity.
Defined.

Lemma entries_upto_cons k date asteroids (rest : feed) :
  entries_upto (S k) ((date, asteroids) :: rest)
  = hazardous_entries date asteroids ++ entries_upto k rest.
Proof. reflexivity. Qed.

(** X8.  The loop over the dates of one response appends the hazardous
    entries of the first [k] dates, in order, where [k] is the first
    position at which three entries are held, or the number of dates if
    that never happens; the dates after [k] add nothing. *)
Theorem scan_response_takes_a_prefix (neo : feed) : forall found,
  exists k,
    (k <= List.length neo)%nat
    /\ scan_response neo found = found ++ entries_upto k neo
    /\ ((k < List.length neo)%nat ->
        (3 <= List.length (found ++ entries_upto k neo))%nat)
    /\ (forall j, (0 < j < k)%nat ->
                  (List.length (found ++ entries_upto j neo) < 3)%nat).
Proof.
  induction neo as [|[date asteroids] rest IH]; intros found.
  - exists O. simpl. rewrite app_nil_r. repeat split; auto; lia.
  - cbn [scan_response]. rewrite append_hazardous_entries.
    destruct (Nat.leb_spec 3 (List.length (found ++ hazardous_entries date asteroids)))
      as [Hge|Hlt].
    + exists 1%nat. rewrite entries_upto_cons.
      change (entries_upto 0 rest) with (@nil (string * string)).
      rewrite app_nil_r. repeat split; auto; simpl; lia.
    + destruct (IH (found ++ hazardous_entries date asteroids))
        as (k & Hk & Heq & Hstop & Hbefore).
      exists (S k). rewrite entries_upto_cons, app_assoc. repeat split.
      * simpl. lia.
      * exact Heq.
      * intros H. apply Hstop. simpl in H. lia.
      * intros [|j] Hj; [lia|]. rewrite entries_upto_cons, app_assoc.
        destruct j as [|j].
        -- change (entries_upto 0 rest) with (@nil (string * string)).
           now rewrite app_nil_r.
        -- apply Hbefore. lia.
Qed.







(** X10.  When the response to the first window holds three or more
    hazardous asteroids, [display_recent_hazardous_asteroids] sends that
    one request and reports what the loop over its dates collected.  (The
    day of the call must not lie in January of year 1.) *)
Theorem scanner_stops_at_first_full_window web strftime today w neo :
  31 <= today ->
  near_earth_objects (web (sent w) {| start_date_param := strftime (today - 1);
                                      end_date_param := strftime today |}) = Some neo ->
  (3 <= List.length (scan_response neo []))%nat ->
  display_recent_hazardous_asteroids web strftime today w
  = (Ok (Some tt),
     {| sent := sent w ++ [{| start_date_param := strftime (today - 1);
                              end_date_param := strftime today |}];
        stdout := stdout w
                  ++ ("The three most recent hazardous asteroids As of today "
                        ++ strftime today ++ " are:")%string
                     :: map (fun entry => (fst entry ++ ": " ++ snd entry)%string)
                            (scan_response neo []) |}).
Proof.
  intros Htoday Hneo Hfull. rewrite scanner_run. unfold sub_days.
  replace (1 <=? today - 1) with true by (symmetry; apply Z.leb_le; lia).
  destruct (Z.to_nat today) as [|fuel] eqn:Efuel; [lia|].
  rewrite (scan_loop_step web strftime fuel today [] w neo) by (simpl; auto; lia).
  rewrite scan_loop_done by exact Hfull. reflexivity.
Qed.

Lemma scanner_stops_at_first_full_window_witness :
  display_recent_hazardous_asteroids (always (ok_response busy_feed)) iso_date may_day fresh
  = (Ok (Some tt),
     {| sent := sent fresh ++ [{| start_date_param := iso_date (may_day - 1);
                                  end_date_param := iso_date may_day |}];
        stdout := stdout fresh
                  ++ ("The three most recent hazardous asteroids As of today "
                        ++ iso_date may_day ++ " are:")%string
                     :: map (fun entry => (fst entry ++ ": " ++ snd entry)%string)
                            (scan_response busy_feed []) |}).
Proof.
  apply (scanner_stops_at_first_full_window (always (ok_response busy_feed)));
    [vm_compute; discriminate | reflexivity | vm_compute; lia].
Defined.

(** X11.  Consecutive windows share a day, so a day can be reported
    twice.  Take a service that answers each request with its start date
    and its end date, and write [h d] for the hazardous entries of day
    [d].  If [h (today-1)], [h today] and [h (today-2)] together hold
    fewer than three entries, the second window brings [h (today-1)] a
    second time, and when that makes three the report lists
    [h (today-1)], [h today], [h (today-2)] and [h (today-1)] again. *)
Theorem overlapping_windows_repeat_a_day
        (strftime : Z -> string) (today : Z) (w : world) (day : string -> list asteroid) :
  let h := fun d : Z => hazardous_entries (strftime d) (day (strftime d)) in
  32 <= today ->
  Nat.lt (List.length (h (today - 1) ++ h today ++ h (today - 2))) 3 ->
  Nat.le 3 (List.length (h (today - 1) ++ h today ++ h (today - 2) ++ h (today - 1))) ->
  display_recent_hazardous_asteroids (two_day_service day) strftime today w
  = (Ok (Some tt),
     {| sent := sent w ++ [ {| start_date_param := strftime (today - 1);
                               end_date_param := strftime today |};
                            {| start_date_param := strftime (today - 2);
                               end_date_param := strftime (today - 1) |} ];
        stdout := stdout w
                  ++ ("The three most recent hazardous asteroids As of today "
                        ++ strftime today ++ " are:")%string
                     :: map (fun entry => (fst entry ++ ": " ++ snd entry)%string)
                            (h (today - 1) ++ h today ++ h (today - 2) ++ h (today - 1))
     |}).
Proof.
  intros h Htoday Hless Hfull. rewrite scanner_run. unfold sub_days.
  replace (1 <=? today - 1) with true by (symmetry; apply Z.leb_le; lia).
  destruct (Z.to_nat today) as [|[|fuel]] eqn:Efuel; [lia|lia|].
  set (a := h (today - 1)) in *. set (b := h today) in *. set (c := h (today - 2)) in *.
  rewrite !length_app in Hless. rewrite !length_app in Hfull.
  (* the first window *)
  rewrite (scan_loop_step (two_day_service day) strftime (S fuel) today [] w
             [(strftime (today - 1), day (strftime (today - 1)));
              (strftime today, day (strftime today))])
    by (simpl; auto; lia).
  cbn [scan_response]. rewrite !append_hazardous_entries.
  change (hazardous_entries (strftime (today - 1)) (day (strftime (today - 1)))) with a.
  change (hazardous_entries (strftime today) (day (strftime today))) with b.
  cbn [app].
  replace (Nat.leb 3 (List.length a)) with false
    by (symmetry; apply Nat.leb_gt; lia).
  replace (Nat.leb 3 (List.length (a ++ b))) with false
    by (symmetry; apply Nat.leb_gt; rewrite length_app; lia).
  (* the second window *)
  rewrite (scan_loop_step (two_day_service day) strftime fuel (today - 1) (a ++ b) _
             [(strftime (today - 1 - 1), day (strftime (today - 1 - 1)));
              (strftime (today - 1), day (strftime (today - 1)))])
    by (rewrite ?length_app; auto; lia).
  cbn [scan_response]. rewrite !append_hazardous_entries.
  replace (today - 1 - 1) with (today - 2) by lia.
  change (hazardous_entries (strftime (today - 1)) (day (strftime (today - 1)))) with a.
  change (hazardous_entries (strftime (today - 2)) (day (strftime (today - 2)))) with c.
  replace (Nat.leb 3 (List.length ((a ++ b) ++ c))) with false
    by (symmetry; apply Nat.leb_gt; rewrite !length_app; lia).
  assert (Hboth : forall (X : list (string * string)),
             (if Nat.leb 3 (List.length X) then X else X) = X)
    by (intros X; now destruct (Nat.leb 3 (List.length X))).
  rewrite Hboth.
  rewrite scan_loop_done by (rewrite !length_app; lia).
  unfold emit, send, window. simpl.
  replace (today - 1 - 1) with (today - 2) by lia.
  rewrite <- !app_assoc. reflexivity.
Qed.

Lemma overlapping_windows_repeat_a_day_witness :
  display_recent_hazardous_asteroids (two_day_service april_30) iso_date may_day fresh
  = (Ok (Some tt),
     {| sent := [ {| start_date_param := "2024-04-30"; end_date_param := "2024-05-01" |};
                  {| start_date_param := "2024-04-29"; end_date_param := "2024-04-30" |} ];
        stdout := [ "The three most recent hazardous asteroids As of today 2024-05-01 are:";
                    "2024-04-30: P"; "2024-04-30: Q";
                    "2024-04-30: P"; "2024-04-30: Q" ]%string |}).
Proof.
  exact (overlapping_windows_repeat_a_day iso_date may_day fresh april_30
           ltac:(vm_compute; discriminate) ltac:(vm_compute; lia) ltac:(vm_compute; lia)).
Defined.

(** ** The entry point *)

Lemma main_run web float_of_string py_sum format_2f strftime today w :
  main web float_of_string py_sum format_2f strftime today w =
  match display_asteroid_information web "2019-10-31" "2019-11-02" w with
  | (Raise e, w1) => (Raise e, w1)
  | (Ok _, w1) =>
      match display_asteroid_properties web float_of_string py_sum format_2f
              "2020-09-10" "2020-09-10" w1 with
      | (Raise e, w2) => (Raise e, w2)
      | (Ok _, w2) => display_recent_hazardous_asteroids web strftime today w2
      end
  end.
Proof.
  unfold main. cbv zeta. rewrite bind_run.
  destruct (display_asteroid_information _ _ _ _) as [[[]|e] w1]; [|reflexivity].
  rewrite bind_run.
  now destruct (display_asteroid_properties _ _ _ _ _ _ _) as [[[]|e] w2].
Qed.

Lemma analyzer_sent web float_of_string py_sum format_2f start_date end_date w :
  sent (snd (display_asteroid_properties web float_of_string py_sum format_2f
               start_date end_date w))
  = sent w ++ [{| start_date_param := start_date; end_date_param := end_date |}].
Proof.
  pose proof (analyzer_run web float_of_string py_sum format_2f start_date end_date w)
    as E. cbv zeta in E. rewrite E.
  repeat match goal with
         | |- context [match ?x with _ => _ end] => destruct x
         end; reflexivity.
Qed.

Lemma scanner_sent web strftime today w :
  exists n, sent (snd (display_recent_hazardous_asteroids web strftime today w))
            = sent w ++ windows strftime today n.
Proof.
  rewrite scanner_run.
  destruct (sub_days today 1) as [start_date|] eqn:Es.
  - apply sub_days_ok in Es. destruct Es as [-> _].
    destruct (scan_loop_windows web strftime (Z.to_nat today) today [] w) as [n Hn].
    exists n. rewrite <- Hn.
    now destruct (scan_loop _ _ _ _ _ _ _) as [[[found|]|e] w'].
  - exists O. simpl. now rewrite app_nil_r.
Qed.

(** X12.  The run stops at the first report that fails: when the
    response to the first request has a status other than 200, [main]
    raises the status error after that one request, for 2019-10-31 to
    2019-11-02, and neither the analyzer nor the scanner is run. *)
Theorem main_stops_at_first_failure
        web float_of_string py_sum format_2f strftime today w :
  let q1 := {| start_date_param := "2019-10-31"; end_date_param := "2019-11-02" |} in
  status_code (web (sent w) q1) <> 200 ->
  main web float_of_string py_sum format_2f strftime today w
  = (Raise (status_error (web (sent w) q1)),
     {| sent := sent w ++ [q1]; stdout := stdout w |}).
Proof.
  intros q1 Hstatus. apply Z.eqb_neq in Hstatus.
  rewrite main_run.
  pose proof (lister_run web "2019-10-31" "2019-11-02" w) as E. cbv zeta in E.
  fold q1 in E. rewrite E, Hstatus. reflexivity.
Qed.

Lemma main_stops_at_first_failure_witness :
  main (always not_found) float_of_digits sum_left no_format iso_date may_day fresh
  = (Raise (status_error not_found),
     {| sent := sent fresh ++ [{| start_date_param := "2019-10-31";
                                  end_date_param := "2019-11-02" |}];
        stdout := stdout fresh |}).
Proof.
  apply (main_stops_at_first_failure (always not_found)). simpl. discriminate.
Defined.

(** X13.  When the first report succeeds, the second request of [main]
    asks for 2020-09-10 to 2020-09-10: line 162 passes [start_date_q2]
    for both dates, so the statistics cover that single day and not the
    week up to 2020-09-17 that [end_date_q2] names.  The requests that
    follow, if any, are the windows of the scanner. *)
Theorem main_analyzes_a_single_day
        web float_of_string py_sum format_2f strftime today w neo :
  let q1 := {| start_date_param := "2019-10-31"; end_date_param := "2019-11-02" |} in
  status_code (web (sent w) q1) = 200 ->
  near_earth_objects (web (sent w) q1) = Some neo ->
  exists n,
    sent (snd (main web float_of_string py_sum format_2f strftime today w))
    = sent w
      ++ q1
      :: {| start_date_param := "2020-09-10"; end_date_param := "2020-09-10" |}
      :: map (fun k => {| start_date_param := strftime (today - Z.of_nat k - 1);
                          end_date_param := strftime (today - Z.of_nat k) |})
             (seq 0 n).
Proof.
  intros q1 Hstatus Hbody. rewrite main_run.
  pose proof (lister_run web "2019-10-31" "2019-11-02" w) as E. cbv zeta in E.
  fold q1 in E. rewrite E, Hstatus, Hbody, Z.eqb_refl. clear E.
  set (w1 := emit (send w q1) (flat_map date_lines neo)).
  pose proof (analyzer_sent web float_of_string py_sum format_2f
                "2020-09-10" "2020-09-10" w1) as Hsent.
  destruct (display_asteroid_properties _ _ _ _ _ _ _) as [[[]|e] w2];
    simpl in Hsent.
  - destruct (scanner_sent web strftime today w2) as [n Hn].
    exists n. rewrite Hn, Hsent, <- !app_assoc. reflexivity.
  - exists O. simpl. rewrite Hsent, <- !app_assoc. reflexivity.
Qed.

Lemma main_analyzes_a_single_day_witness :
  exists n,
    sent (snd (main (always (ok_response scenario_feed)) float_of_digits sum_left
                 no_format iso_date may_day fresh))
    = sent fresh
      ++ {| start_date_param := "2019-10-31"; end_date_param := "2019-11-02" |}
      :: {| start_date_param := "2020-09-10"; end_date_param := "2020-09-10" |}
      :: map (fun k => {| start_date_param := iso_date (may_day - Z.of_nat k - 1);
                          end_date_param := iso_date (may_day - Z.of_nat k) |})
             (seq 0 n).
Proof.
  apply (main_analyzes_a_single_day (always (ok_response scenario_feed)) float_of_digits
           sum_left no_format iso_date may_day fresh scenario_feed); reflexivity.
Defined.

(** ** The aggregates: a further property *)

Section Ends.
Local Open Scope float_scope.

(** X14.  On a non-empty list without NaN, the slowest velocity is the
    first item of the sorted list and the fastest velocity is its last
    item (the same values), and the slowest is [<=] the fastest: [min],
    [max] and [sorted] agree on the order. *)
Theorem extremes_are_ends_of_sorted (velocities : list float) :
  velocities <> [] -> Forall nonnan velocities ->
  exists lo hi,
    slowest_velocity velocities = Ok lo
    /\ fastest_velocity velocities = Ok hi
    /\ same_value lo (nth 0 (sorted velocities) 0)
    /\ same_value hi (nth (List.length velocities - 1) (sorted velocities) 0)
    /\ fle lo hi.
Proof.
  intros Hne Hnn.
  destruct (slowest_bound velocities Hne Hnn) as (lo & Elo & Ilo & Hlb).
  destruct (fastest_bound velocities Hne Hnn) as (hi & Ehi & Ihi & Hub).
  exists lo, hi. split; [exact Elo|]. split; [exact Ehi|].
  set (s := sorted velocities). set (n := List.length velocities).
  assert (Hn : (0 < n)%nat) by (destruct velocities; [congruence | simpl in n; lia]).
  assert (Hlen : List.length s = n) by apply sorted_length.
  assert (Hasc : ascending s) by now apply sorted_ascending.
  assert (Hin : forall i, (i < n)%nat -> In (nth i s 0) velocities).
  { intros i Hi. eapply Permutation_in; [apply sorted_perm|]. apply nth_In.
    rewrite sorted_length. exact Hi. }
  assert (Hpos : forall x, In x velocities -> exists i, (i < n)%nat /\ nth i s 0 = x).
  { intros x Hx. rewrite <- Hlen. apply In_nth.
    eapply Permutation_in; [symmetry; apply sorted_perm | exact Hx]. }
  assert (Hnan : forall x, In x velocities -> nonnan x)
    by (now apply Forall_forall).
  assert (Hlast : (n - 1 < n)%nat) by lia.
  repeat split.
  - apply fle_antisym; [now apply Hnan | now apply Hnan, Hin | now apply Hlb, Hin |].
    destruct (Hpos lo Ilo) as (i & Hi & <-). destruct i as [|i].
    + apply fle_refl, Hnan, Hin, Hn.
    + apply ascending_nth; [exact Hasc | lia | lia].
  - apply fle_antisym; [now apply Hnan | now apply Hnan, Hin | | now apply Hub, Hin].
    destruct (Hpos hi Ihi) as (i & Hi & <-).
    destruct (Nat.eq_dec i (n - 1)) as [->|Hneq].
    + apply fle_refl, Hnan, Hin, Hlast.
    + apply ascending_nth; [exact Hasc | lia | lia].
  - now apply Hlb.
Qed.

Lemma extremes_are_ends_of_sorted_witness :
  exists lo hi,
    slowest_velocity [7; 3; 9; 1] = Ok lo
    /\ fastest_velocity [7; 3; 9; 1] = Ok hi
    /\ same_value lo (nth 0 (sorted [7; 3; 9; 1]) 0)
    /\ same_value hi (nth (List.length [7; 3; 9; 1] - 1) (sorted [7; 3; 9; 1]) 0)
    /\ fle lo hi.
Proof.
  apply (extremes_are_ends_of_sorted [7; 3; 9; 1]);
    [discriminate | repeat constructor].
Defined.

End Ends.
